(** * Kiwi end-to-end test suite: configuration, page object, steps, harness

    A shallow embedding of the Python sources
    - [config.py]                          (module [config])
    - [test_data/airports.py]              (module [airports])
    - [tests/pages/home_page.py]           (module [home_page])
    - [tests/steps/test_basic_search_steps.py] (module [steps])
    - [conftest.py]                        (module [conftest])
    followed by the properties proved about them.

    The browser (Playwright), the file system, the process environment and
    the clock are the program's collaborators; they appear as explicit
    state that the embedded functions read and thread through. *)

From Stdlib Require Import ZArith NArith Ascii String List Bool Lia.
From stdpp Require Import base option gmap strings list pretty.

Open Scope Z_scope.

(* ===================================================================== *)
(** ** Texts                                                              *)
(* ===================================================================== *)

(** A text ([str]) of the program is carried as a [string]: the bytes of
    its UTF-8 form, where a byte that belongs to no well-formed sequence
    stands for the lone surrogate U+DC80..U+DCFF Python gives it.  This
    is what the process environment holds on POSIX (bytes, which
    [os.environ] decodes with [surrogateescape]), and joining such texts
    around ASCII text, as the f-strings of this code base do, joins
    their bytes.  The methods of [str] work on the code points of a text;
    they are in module [unicode]. *)
Module pystr.

(** [str(b)] *)
Definition of_bool (b : bool) : string := if b then "True" else "False".

(** [str(n)], for an integer whose decimal form the interpreter's limit
    on digits lets through (any integer of up to 640 digits). *)
Definition of_int (n : Z) : string := pretty n.

(** [s * n] *)
Fixpoint mul (s : string) (n : nat) : string :=
  match n with
  | O => EmptyString
  | S n' => s +:+ mul s n'
  end.

Definition newline : ascii := "010"%char.


(** The lines of a text, a line ending at each newline (the last line
    may go without). *)
Fixpoint lines (s : string) : list string :=
  match s with
  | EmptyString => []
  | String c s' =>
      if decide (c = newline) then EmptyString :: lines s'
      else match lines s' with
           | [] => [String c EmptyString]
           | line :: rest => String c line :: rest
           end
  end.

(** *** ASCII blanks and ASCII letter case, byte by byte *)

(** These speak about the bytes of a text, not about its
    characters: they serve to state what padding with ASCII blanks and
    changing the case of ASCII letters do to a setting.  What [str.strip]
    and [str.lower] do to a text is [unicode.strip] and
    [unicode.lower]. *)

(** An ASCII blank: TAB, LF, VT, FF, CR, FS, GS, RS, US or SPACE, the
    characters below U+0080 for which [c.isspace()] holds. *)
Definition isspace (c : ascii) : bool :=
  let n := N_of_ascii c in
  ((9 <=? n) && (n <=? 13) || (28 <=? n) && (n <=? 32))%N.

(** The lower-case form of an ASCII capital letter; any other byte as it
    is. *)
Definition lower_char (c : ascii) : ascii :=
  let n := N_of_ascii c in
  if ((65 <=? n) && (n <=? 90))%N then ascii_of_N (n + 32) else c.

(** The text with its ASCII capital letters in lower case. *)
Fixpoint lower (s : string) : string :=
  match s with
  | EmptyString => EmptyString
  | String c s' => String (lower_char c) (lower s')
  end.


End pystr.

(* ===================================================================== *)
(** ** The characters of a text and the methods of [str]                  *)
(* ===================================================================== *)

(** Python sees a text as its code points, and [strip], [lower], [repr]
    and [int] work on those.  The properties of characters that come
    from the interpreter's Unicode database are taken from it
    ([UnicodeData]); the ASCII range and the set of whitespace
    characters are written out. *)
Module unicode.
Open Scope N_scope.

(** The bytes of a text. *)
Fixpoint bytes (s : string) : list N :=
  match s with
  | EmptyString => []
  | String c s' => N_of_ascii c :: bytes s'
  end.

Fixpoint of_bytes (l : list N) : string :=
  match l with
  | [] => EmptyString
  | b :: l' => String (ascii_of_N b) (of_bytes l')
  end.

(** *** Decoding: UTF-8 with [surrogateescape] *)

Definition continuation (b : N) : bool := (128 <=? b) && (b <=? 191).

(** A well-formed two-, three- or four-byte sequence (no overlong forms,
    no encoded surrogates, nothing above U+10FFFF). *)
Definition two (b0 b1 : N) : bool :=
  (194 <=? b0) && (b0 <=? 223) && continuation b1.

Definition three (b0 b1 b2 : N) : bool :=
  continuation b2 &&
  ((b0 =? 224) && (160 <=? b1) && (b1 <=? 191)
   || ((225 <=? b0) && (b0 <=? 236) || (238 <=? b0) && (b0 <=? 239)) && continuation b1
   || (b0 =? 237) && (128 <=? b1) && (b1 <=? 159)).

Definition four (b0 b1 b2 b3 : N) : bool :=
  continuation b2 && continuation b3 &&
  ((b0 =? 240) && (144 <=? b1) && (b1 <=? 191)
   || (241 <=? b0) && (b0 <=? 243) && continuation b1
   || (b0 =? 244) && (128 <=? b1) && (b1 <=? 143)).

(** A byte on its own: itself when ASCII, else the lone surrogate
    U+DC80..U+DCFF that stands for it. *)
Definition lone (b : N) : N := if b <? 128 then b else 56320 + b.

(** The characters of a byte sequence, each with the bytes it was read
    from. *)
Fixpoint decode (s : list N) : list (N * list N) :=
  match s with
  | [] => []
  | b0 :: r0 =>
      match r0 with
      | b1 :: r1 =>
          if two b0 b1 then ((b0 - 192) * 64 + (b1 - 128), [b0; b1]) :: decode r1
          else
            match r1 with
            | b2 :: r2 =>
                if three b0 b1 b2 then
                  ((b0 - 224) * 4096 + (b1 - 128) * 64 + (b2 - 128), [b0; b1; b2])
                    :: decode r2
                else
                  match r2 with
                  | b3 :: r3 =>
                      if four b0 b1 b2 b3 then
                        ((b0 - 240) * 262144 + (b1 - 128) * 4096 + (b2 - 128) * 64
                           + (b3 - 128), [b0; b1; b2; b3]) :: decode r3
                      else (lone b0, [b0]) :: decode r0
                  | [] => (lone b0, [b0]) :: decode r0
                  end
            | [] => (lone b0, [b0]) :: decode r0
            end
      | [] => (lone b0, [b0]) :: decode r0
      end
  end.

(** The code points of a text. *)
Definition code_points (s : string) : list N := (decode (bytes s)).*1.

(** *** Whitespace *)

(** [c.isspace()]: the characters [str.strip()] removes. *)
Definition isspace (c : N) : bool :=
  (9 <=? c) && (c <=? 13) || (28 <=? c) && (c <=? 32)
  || (c =? 133) || (c =? 160) || (c =? 5760)
  || (8192 <=? c) && (c <=? 8202)
  || (c =? 8232) || (c =? 8233) || (c =? 8239) || (c =? 8287) || (c =? 12288).

Fixpoint lstrip_by (p : N → bool) (l : list N) : list N :=
  match l with
  | [] => []
  | c :: l' => if p c then lstrip_by p l' else l
  end.

Fixpoint rstrip_by (p : N → bool) (l : list N) : list N :=
  match l with
  | [] => []
  | c :: l' =>
      match rstrip_by p l' with
      | [] => if p c then [] else [c]
      | r => c :: r
      end
  end.

(** [s.strip()] *)
Definition strip (l : list N) : list N := rstrip_by isspace (lstrip_by isspace l).

(** Lower case within ASCII: A-Z to a-z, anything else as it is. *)
Definition ascii_lower (c : N) : N :=
  if (65 <=? c) && (c <=? 90) then c + 32 else c.

(** *** The Unicode database *)

(** What the interpreter's Unicode database says about the characters
    from U+0080 on: the full lower-case mapping, the Cased and
    Case_Ignorable properties, printability, and the value of a decimal
    digit. *)
Class UnicodeData := {
  to_lower_full : N → list N;
  is_cased : N → bool;
  is_case_ignorable : N → bool;
  is_printable : N → bool;
  to_decimal : N → option N;
}.

Section WithDatabase.
Context {database : UnicodeData}.

(** *** Lower case *)

Definition lower_full (c : N) : list N :=
  if c <? 128 then [ascii_lower c] else to_lower_full c.

Definition cased (c : N) : bool :=
  if c <? 128 then (65 <=? c) && (c <=? 90) || (97 <=? c) && (c <=? 122)
  else is_cased c.

Definition case_ignorable (c : N) : bool :=
  if c <? 128 then (c =? 39) || (c =? 46) || (c =? 58) || (c =? 94) || (c =? 96)
  else is_case_ignorable c.

(** The first character that is not case-ignorable. *)
Fixpoint first_significant (l : list N) : option N :=
  match l with
  | [] => None
  | c :: l' => if case_ignorable c then first_significant l' else Some c
  end.

(** Whether a capital sigma with [before] (nearest first) on its left and
    [after] on its right ends a word. *)
Definition final_sigma (before after : list N) : bool :=
  match first_significant before with
  | Some c => cased c
  | None => false
  end
  && match first_significant after with
     | Some c => negb (cased c)
     | None => true
     end.

Fixpoint lower_from (before : list N) (l : list N) : list N :=
  match l with
  | [] => []
  | c :: l' =>
      (if c =? 931 then [if final_sigma before l' then 962 else 963]
       else lower_full c)
      ++ lower_from (c :: before) l'
  end.

(** [s.lower()] *)
Definition lower (l : list N) : list N := lower_from [] l.

(** *** [repr] *)

Definition hex_digit (n : N) : N := if n <? 10 then 48 + n else 87 + n.

(** [width] lower-case hexadecimal digits of [n]. *)
Fixpoint hex (width : nat) (n : N) : list N :=
  match width with
  | O => []
  | S w => hex w (n / 16) ++ [hex_digit (n mod 16)]
  end.

Definition printable (c : N) : bool :=
  if c <? 128 then (32 <=? c) && (c <? 127) else is_printable c.

(** One character of [repr(s)] when the surrounding quote is [q]: the
    bytes written for the character [c] read from [raw]. *)
Definition repr_char (q : N) (c : N) (raw : list N) : list N :=
  if (c =? q) || (c =? 92) then [92; c]
  else if c =? 9 then [92; 116]
  else if c =? 10 then [92; 110]
  else if c =? 13 then [92; 114]
  else if printable c then raw
  else if c <? 256 then [92; 120] ++ hex 2 c
  else if c <? 65536 then [92; 117] ++ hex 4 c
  else [92; 85] ++ hex 8 c.

(** [repr(s)], what [{s!r}] interpolates: single quotes unless the text
    has a single quote and no double quote. *)
Definition repr (s : string) : string :=
  let chars := decode (bytes s) in
  let has c := existsb (λ x : N * list N, x.1 =? c) chars in
  let q := if has 39 && negb (has 34) then 34 else 39 in
  of_bytes ([q] ++ concat (map (λ x : N * list N, repr_char q x.1 x.2) chars) ++ [q]).

End WithDatabase.

(** A stand-in for the database to run examples on.  It knows the
    Latin-1 supplement (U+0080..U+00FF), the Greek sigmas and two
    blocks of decimal digits (Arabic-Indic, fullwidth); for every other
    character it answers with a default (its own lower case, uncased,
    printable unless whitespace or a surrogate, no digit). *)
Definition sample : UnicodeData :=
  {| to_lower_full c :=
       if (192 <=? c) && (c <=? 222) && negb (c =? 215) then [c + 32] else [c];
     is_cased c :=
       (c =? 170) || (c =? 181) || (c =? 186)
       || (192 <=? c) && (c <=? 255) && negb (c =? 215) && negb (c =? 247)
       || (c =? 931) || (c =? 962) || (c =? 963);
     is_case_ignorable c :=
       (c =? 168) || (c =? 173) || (c =? 175) || (c =? 180) || (c =? 183) || (c =? 184);
     is_printable c :=
       negb ((c <=? 160) || (c =? 173) || isspace c
             || (55296 <=? c) && (c <=? 57343));
     to_decimal c :=
       if (1632 <=? c) && (c <=? 1641) then Some (c - 1632)
       else if (65296 <=? c) && (c <=? 65305) then Some (c - 65296)
       else None |}.

End unicode.

(* ===================================================================== *)
(** ** Python's [int(s)] on a string                                      *)
(* ===================================================================== *)

Module pyint.
Import unicode.
Open Scope N_scope.

Section WithDatabase.
Context {database : UnicodeData}.

(** The whitespace [int] skips around the number: the C locale's (TAB,
    LF, VT, FF, CR, SPACE) in the ASCII range, and from U+0080 on every
    whitespace character (they are turned into spaces first). *)
Definition Py_ISSPACE (c : N) : bool :=
  if c <? 128 then (9 <=? c) && (c <=? 13) || (c =? 32) else isspace c.

(** The value of a decimal digit: ASCII 0-9, and from U+0080 on the
    characters the database gives a decimal value to (whitespace is
    looked at first). *)
Definition digit (c : N) : option Z :=
  if c <? 128 then
    if (48 <=? c) && (c <=? 57) then Some (Z.of_N (c - 48)) else None
  else if isspace c then None
  else match to_decimal c with
       | Some d => if d <? 10 then Some (Z.of_N d) else None
       | None => None
       end.

(** Digits with single underscores between them: [acc] is the value read
    so far, [count] the number of digits read, [after_digit] tells
    whether the previous character was a digit (an underscore is only
    allowed there, and must be followed by a digit). *)
Fixpoint digits (l : list N) (acc : Z) (count : Z) (after_digit : bool)
  : option (Z * Z) :=
  match l with
  | [] => if after_digit then Some (acc, count) else None
  | c :: l' =>
      match digit c with
      | Some d => digits l' (10 * acc + d)%Z (count + 1)%Z true
      | None =>
          if c =? 95 then
            if after_digit then digits l' acc count false else None
          else None
      end
  end.

(** The number a text denotes and how many digits it has, without any
    limit on the length. *)
Definition parse (l : list N) : option (Z * Z) :=
  let body := rstrip_by Py_ISSPACE (lstrip_by Py_ISSPACE l) in
  match body with
  | c :: rest =>
      if c =? 45 then
        match digits rest 0 0 false with
        | Some (v, count) => Some ((- v)%Z, count)
        | None => None
        end
      else if c =? 43 then digits rest 0 0 false
      else digits body 0 0 false
  | [] => None
  end.

(** Whether the interpreter's limit on integer texts lets a text of
    [count] digits through: the limit [max_str_digits]
    ([sys.get_int_max_str_digits()], 4300 unless changed, 0 for none) is
    only looked at for more than 640 digits. *)
Definition within_limit (max_str_digits count : Z) : bool :=
  negb ((640 <? count)%Z && (0 <? max_str_digits)%Z && (max_str_digits <? count)%Z).

(** [int(s)]; [None] stands for [ValueError]. *)
Definition int (max_str_digits : Z) (s : string) : option Z :=
  match parse (code_points s) with
  | Some (v, count) => if within_limit max_str_digits count then Some v else None
  | None => None
  end.

End WithDatabase.
End pyint.

(* ===================================================================== *)
(** ** Numeric texts                                                      *)
(* ===================================================================== *)

(** What a numeric text is, said without the reading algorithm, as the
    language reference describes the argument of [int]: blanks, an
    optional sign, decimal digits with single underscores allowed
    between digits, blanks. *)
Module numeral.
Open Scope N_scope.

(** The blanks allowed around the number: TAB, LF, VT, FF, CR, SPACE and
    the whitespace characters from U+0080 on. *)
Definition blank (c : N) : bool :=
  (c =? 9) || (c =? 10) || (c =? 11) || (c =? 12) || (c =? 13) || (c =? 32)
  || (c =? 133) || (c =? 160) || (c =? 5760)
  || (8192 <=? c) && (c <=? 8202)
  || (c =? 8232) || (c =? 8233) || (c =? 8239) || (c =? 8287) || (c =? 12288).

Section WithDatabase.
Context {database : unicode.UnicodeData}.

(** [decimal c d]: the character [c] is a decimal digit of value [d],
    either one of 0-9 or a character from U+0080 on that the Unicode
    database gives a decimal value to. *)
Definition decimal (c : N) (d : Z) : Prop :=
  48 ≤ c ≤ 57 ∧ d = (Z.of_N c - 48)%Z
  ∨ 128 ≤ c ∧ blank c = false ∧
    ∃ k, unicode.to_decimal c = Some k ∧ k < 10 ∧ d = Z.of_N k.

(** A run of decimal digits, with the number it denotes and its number
    of digits: run ::= digit | run digit | run _ digit. *)
Inductive digit_run : list N → Z → Z → Prop :=
| run_digit c d : decimal c d → digit_run [c] d 1
| run_more l v n c d :
    digit_run l v n → decimal c d → digit_run (l ++ [c]) (10 * v + d)%Z (n + 1)%Z
| run_underscore l v n c d :
    digit_run l v n → decimal c d →
    digit_run (l ++ [95; c]) (10 * v + d)%Z (n + 1)%Z.

(** [reads_as l v n]: the text [l] is numeric, denotes [v] and has [n]
    digits. *)
Definition reads_as (l : list N) (v : Z) (n : Z) : Prop :=
  ∃ pre sign body post m,
    l = pre ++ sign ++ body ++ post ∧
    Forall (λ c, blank c = true) pre ∧ Forall (λ c, blank c = true) post ∧
    (sign = [] ∧ v = m ∨ sign = [43] ∧ v = m ∨ sign = [45] ∧ v = (- m)%Z) ∧
    digit_run body m n.

End WithDatabase.

(** The interpreter's limit on the length of integer texts
    ([sys.get_int_max_str_digits()], 4300 unless changed, 0 for no
    limit) lets a text of [n] digits through: texts of up to 640 digits
    always pass. *)
Definition within_limit (max_str_digits n : Z) : Prop :=
  (n ≤ 640 ∨ max_str_digits ≤ 0 ∨ n ≤ max_str_digits)%Z.

End numeral.

(* ===================================================================== *)
(** ** Python's [datetime.date] (proleptic Gregorian calendar)            *)
(* ===================================================================== *)

Module datetime.

Record date := { year : Z; month : Z; day : Z }.

Definition MINYEAR : Z := 1.
Definition MAXYEAR : Z := 9999.
Definition _MAXORDINAL : Z := 3652059.

Definition _DAYS_IN_MONTH : list Z :=
  [-1; 31; 28; 31; 30; 31; 30; 31; 31; 30; 31; 30; 31].

Definition _DAYS_BEFORE_MONTH : list Z :=
  [-1; 0; 31; 59; 90; 120; 151; 181; 212; 243; 273; 304; 334].

(** [table[i]] for the two month tables. *)
Definition item (table : list Z) (i : Z) : Z := default 0 (table !! Z.to_nat i).

Definition _is_leap (y : Z) : bool :=
  (y mod 4 =? 0) && (negb (y mod 100 =? 0) || (y mod 400 =? 0)).

Definition _days_before_year (y : Z) : Z :=
  let y := y - 1 in y * 365 + y / 4 - y / 100 + y / 400.

Definition _days_in_month (y m : Z) : Z :=
  if (m =? 2) && _is_leap y then 29 else item _DAYS_IN_MONTH m.

Definition _days_before_month (y m : Z) : Z :=
  item _DAYS_BEFORE_MONTH m + (if (2 <? m) && _is_leap y then 1 else 0).

Definition _ymd2ord (y m d : Z) : Z :=
  _days_before_year y + _days_before_month y m + d.

Definition _DI400Y : Z := 146097.
Definition _DI100Y : Z := 36524.
Definition _DI4Y : Z := 1461.

Definition _ord2ymd (n : Z) : date :=
  let n := n - 1 in
  let n400 := n / _DI400Y in
  let n := n mod _DI400Y in
  let year := n400 * 400 + 1 in
  let n100 := n / _DI100Y in
  let n := n mod _DI100Y in
  let n4 := n / _DI4Y in
  let n := n mod _DI4Y in
  let n1 := n / 365 in
  let n := n mod 365 in
  let year := year + n100 * 100 + n4 * 4 + n1 in
  if (n1 =? 4) || (n100 =? 4) then
    {| year := year - 1; month := 12; day := 31 |}
  else
    let leapyear := (n1 =? 3) && (negb (n4 =? 24) || (n100 =? 3)) in
    let month := Z.shiftr (n + 50) 5 in
    let preceding :=
      item _DAYS_BEFORE_MONTH month + (if (2 <? month) && leapyear then 1 else 0) in
    if n <? preceding then
      let month := month - 1 in
      let preceding :=
        preceding - (item _DAYS_IN_MONTH month
                     + (if (month =? 2) && leapyear then 1 else 0)) in
      {| year := year; month := month; day := n - preceding + 1 |}
    else
      {| year := year; month := month; day := n - preceding + 1 |}.

(** [d.toordinal()] and [date.fromordinal(n)] *)
Definition toordinal (d : date) : Z := _ymd2ord (year d) (month d) (day d).
Definition fromordinal (n : Z) : date := _ord2ymd n.

(** The dates a [date] object can hold. *)
Definition valid (d : date) : Prop :=
  MINYEAR <= year d <= MAXYEAR ∧ 1 <= month d <= 12 ∧
  1 <= day d <= _days_in_month (year d) (month d).

(** [timedelta(days=n)]: [None] stands for [OverflowError]. *)
Definition timedelta (days : Z) : option Z :=
  if Z.abs days <=? 999999999 then Some days else None.

(** [d + delta]: [None] stands for [OverflowError]. *)
Definition add (d : date) (delta_days : Z) : option date :=
  let o := toordinal d + delta_days in
  if (0 <? o) && (o <=? _MAXORDINAL) then Some (fromordinal o) else None.

(** [s.zfill(width)] on the decimal text of a non-negative number. *)
Definition zfill (width : nat) (s : string) : string :=
  String.concat "" (replicate (width - String.length s) "0") +:+ s.

(** [d.strftime("%Y-%m-%d")]: the year in decimal (four digits from
    year 1000 on; the C library does not pad earlier years), then the
    month and the day on two digits each. *)
Definition strftime_Y_m_d (d : date) : string :=
  pretty (year d) +:+ "-" +:+ zfill 2 (pretty (month d))
    +:+ "-" +:+ zfill 2 (pretty (day d)).

(** The calendar's own notion of the following day. *)
Definition next_day (d : date) : date :=
  if day d <? _days_in_month (year d) (month d) then
    {| year := year d; month := month d; day := day d + 1 |}
  else if month d <? 12 then
    {| year := year d; month := month d + 1; day := 1 |}
  else
    {| year := year d + 1; month := 1; day := 1 |}.

(** [d.isoformat()]: the ISO 8601 form YYYY-MM-DD. *)
Definition isoformat (d : date) : string :=
zfill 4 (pretty (year d)) +:+ "-" +:+ zfill 2 (pretty (month d))
  +:+ "-" +:+ zfill 2 (pretty (day d)).

(** The month search of [_ord2ymd] on its own: month and day of the day
  number [n] (counted from 0) of a year. *)
Definition month_and_day (leapyear : bool) (n : Z) : Z * Z :=
let month := Z.shiftr (n + 50) 5 in
let preceding :=
  item _DAYS_BEFORE_MONTH month + (if (2 <? month) && leapyear then 1 else 0) in
if n <? preceding then
  let month := month - 1 in
  let preceding :=
    preceding - (item _DAYS_IN_MONTH month
                 + (if (month =? 2) && leapyear then 1 else 0)) in
  (month, n - preceding + 1)
else (month, n - preceding + 1).

(** The month tables read with the leap flag already known. *)
Definition days_in_month_of (leapyear : bool) (m : Z) : Z :=
if (m =? 2) && leapyear then 29 else item _DAYS_IN_MONTH m.

Definition days_before_month_of (leapyear : bool) (m : Z) : Z :=
item _DAYS_BEFORE_MONTH m + (if (2 <? m) && leapyear then 1 else 0).

(** What has to hold of day [d] of month [m]: its day number lies in the
  year, the month search finds it again (the last day of a leap year is
  handled before the search), and the next month starts right after the
  last day of this one. *)
Definition month_tables_agree (leapyear : bool) (m d : Z) : bool :=
let n := days_before_month_of leapyear m + d - 1 in
implb (d <=? days_in_month_of leapyear m)
  ((0 <=? n) && (n <=? 364 + (if leapyear then 1 else 0))
   && (if n =? 365 then (m =? 12) && (d =? 31)
       else let '(m', d') := month_and_day leapyear n in (m' =? m) && (d' =? d))
   && ((m =? 12) || (days_before_month_of leapyear (m + 1) =?
                      days_before_month_of leapyear m + days_in_month_of leapyear m))
   && (28 <=? days_in_month_of leapyear m) && (days_in_month_of leapyear m <=? 31)
   && ((m <? 12) || (days_before_month_of leapyear m + days_in_month_of leapyear m
                      =? 365 + (if leapyear then 1 else 0)))).

(** [date.min], the first day a [date] can hold. *)
Definition first_day : date := {| year := 1; month := 1; day := 1 |}.

End datetime.

(* ===================================================================== *)
(** ** config.py                                                          *)
(* ===================================================================== *)

Module config.

(** [os.environ] *)
Abbreviation environ := (gmap string string).

(** A warning handed to [warnings.warn]: its category is always
    [RuntimeWarning] in this module. *)
Inductive Warning := RuntimeWarning (message : string).

(** [os.getenv(name)] *)
Definition getenv (env : environ) (name : string) : option string := env !! name.

(** [os.getenv(name, default)] *)
Definition getenv_default (env : environ) (name default : string) : string :=
  match env !! name with Some v => v | None => default end.

(** The accepted tokens, as [str] values. *)
Definition truthy : gset (list N) :=
  {[ unicode.code_points "1"; unicode.code_points "true";
     unicode.code_points "yes"; unicode.code_points "on" ]}.
Definition falsy : gset (list N) :=
  {[ unicode.code_points "0"; unicode.code_points "false";
     unicode.code_points "no"; unicode.code_points "off" ]}.

Section Accessors.
Context {database : unicode.UnicodeData}.

Definition invalid_boolean_message (name raw_value : string) (default : bool) : string :=
  "Invalid boolean value for " +:+ name +:+ ": " +:+ unicode.repr raw_value
    +:+ ". Using default " +:+ pystr.of_bool default.

(** [_get_env_bool(name, default)]: the value returned and the warnings
    emitted on the way. *)
Definition _get_env_bool (env : environ) (name : string) (default : bool)
  : bool * list Warning :=
  match getenv env name with
  | None => (default, [])
  | Some raw_value =>
      let normalized := unicode.lower (unicode.strip (unicode.code_points raw_value)) in
      if decide (normalized ∈ truthy) then (true, [])
      else if decide (normalized ∈ falsy) then (false, [])
      else (default, [RuntimeWarning (invalid_boolean_message name raw_value default)])
  end.

Definition invalid_integer_message (name raw_value : string) (default : Z) : string :=
  "Invalid integer value for " +:+ name +:+ ": " +:+ unicode.repr raw_value
    +:+ ". Using default " +:+ pystr.of_int default.

(** [_get_env_int(name, default)], in an interpreter whose limit on the
    digits of an integer text is [max_str_digits]. *)
Definition _get_env_int (max_str_digits : Z) (env : environ) (name : string) (default : Z)
  : Z * list Warning :=
  match getenv env name with
  | None => (default, [])
  | Some raw_value =>
      match pyint.int max_str_digits raw_value with
      | Some n => (n, [])
      | None => (default, [RuntimeWarning (invalid_integer_message name raw_value default)])
      end
  end.

End Accessors.

(** *** Environment files *)

(** [pathlib]: [Path(s)] and [p / s].  The path type is left to the
    platform. *)
Class PathLib (Path : Type) := {
  Path_of : string → Path;
  joinpath : Path → string → Path;
}.

(** What the run can observe of the file system: [p.exists()], the
    key/value dictionary python-dotenv reads from the file at [p] (it
    depends on the [override] flag and on [os.environ] through variable
    interpolation), and the file [find_dotenv()] discovers, if any. *)
Record FileSystem (Path : Type) := {
  exists_ : Path → bool;
  dotenv_dict : Path → bool → environ → gmap string string;
  find_dotenv : option Path;
}.
Arguments exists_ {Path} _ _.
Arguments dotenv_dict {Path} _ _ _ _.
Arguments find_dotenv {Path} _.

(** One call of [load_dotenv], as the harness sees it. *)
Record LoadCall (Path : Type) := {
  dotenv_path : option Path;
  override : bool;
}.
Arguments dotenv_path {Path} _.
Arguments override {Path} _.

Section Loading.
Context {Path : Type} `{PathLib Path}.
Variable fs : FileSystem Path.

  (** [load_dotenv(dotenv_path=p, override=o)]: every key of the file's
      dictionary is written to [os.environ], except keys already there
      when [override] is off.  Without a path the file is discovered
      with [find_dotenv()]; nothing is loaded when none is found. *)
Definition load_dotenv (p : option Path) (o : bool) (env : environ) : environ :=
    match (match p with Some q => Some q | None => find_dotenv fs end) with
    | None => env
    | Some q =>
        let d := dotenv_dict fs q o env in
        if o then d ∪ env else env ∪ d
    end.

  (** The list built in [candidate_paths] before the loop. *)
Definition candidate_paths (env : environ) : list Path :=
    let test_env := getenv env "TEST_ENV" in
    (match test_env with
     | Some name =>
         if decide (name = "") then []
         else [ joinpath (Path_of "env") (name +:+ ".env");
                Path_of (name +:+ ".env") ]
     | None => []
     end)
    ++ [ joinpath (Path_of "env") "test.env";
         Path_of "test.env";
         Path_of ".env" ].

  (** The [for env_path in candidate_paths] loop with its early return,
      then the fallback [load_dotenv()]. *)
Fixpoint load_first (paths : list Path) (env : environ)
    : environ * list (LoadCall Path) :=
    match paths with
    | [] =>
        (load_dotenv None false env,
         [ {| dotenv_path := None; override := false |} ])
    | env_path :: rest =>
        if exists_ fs env_path then
          (load_dotenv (Some env_path) true env,
           [ {| dotenv_path := Some env_path; override := true |} ])
        else load_first rest env
    end.

  (** [_load_environment()]: the new [os.environ] and the calls of
      [load_dotenv] made. *)
Definition _load_environment (env : environ) : environ * list (LoadCall Path) :=
    load_first (candidate_paths env) env.

End Loading.

(** *** The [Config] class *)

Record Config := {
  BASE_URL : string;
  DEFAULT_TIMEOUT : Z;
  HEADLESS : bool;
  DEFAULT_BROWSER : string;
  TEST_DATA_PATH : string;
}.

(** The class body of [Config], evaluated once at import: the attribute
    values and the warnings emitted, in evaluation order. *)
Definition Config_of {database : unicode.UnicodeData} (max_str_digits : Z) (env : environ)
  : Config * list Warning :=
  let '(timeout, w1) := _get_env_int max_str_digits env "DEFAULT_TIMEOUT" 15000 in
  let '(headless, w2) := _get_env_bool env "HEADLESS" false in
  ({| BASE_URL := getenv_default env "BASE_URL" "https://www.kiwi.com/en/";
      DEFAULT_TIMEOUT := timeout;
      HEADLESS := headless;
      DEFAULT_BROWSER := getenv_default env "DEFAULT_BROWSER" "chromium";
      TEST_DATA_PATH := getenv_default env "TEST_DATA_PATH" "test_data" |},
   w1 ++ w2).

(** A plain rendering of POSIX paths as text, enough to run the search
    on examples: joining with an absolute right operand gives the right
    operand. *)
Definition posix_join (p : string) (s : string) : string :=
  match s with
  | String "/"%char _ => s
  | _ => p +:+ "/" +:+ s
  end.

Definition posix_paths : PathLib string :=
  {| Path_of := λ s, s; joinpath := posix_join |}.

(** A file system given by the files present and their dictionaries. *)
Definition fs_of_files (files : gmap string (gmap string string)) : FileSystem string :=
  {| exists_ := λ p, bool_decide (is_Some (files !! p));
     dotenv_dict := λ p _ _, default ∅ (files !! p);
     find_dotenv := None |}.

(** *** The module as a whole *)

(** Importing [config]: [_load_environment()] runs, then the class body
    of [Config] reads the environment it left.  The result is the
    configuration, the warnings of the class body, the environment after
    loading and the [load_dotenv] calls made. *)
Definition import_config {database : unicode.UnicodeData}
    {Path : Type} {pathlib : PathLib Path} (fs : FileSystem Path)
    (max_str_digits : Z) (env : environ)
  : Config * list Warning * environ * list (LoadCall Path) :=
  let loaded := _load_environment fs env in
  let cls := Config_of max_str_digits loaded.1 in
  (cls.1, cls.2, loaded.1, loaded.2).

(** [print(line)] on [sys.stdout]: the text written so far grows by the
    line and a newline. *)
Definition print (line : string) (written : string) : string :=
  written +:+ line +:+ String pystr.newline EmptyString.

(** [Config.print_config()]: the text written to [sys.stdout], given the
    environment at the time of the call.  The timeout is one whose
    decimal form the interpreter lets through. *)
Definition print_config (cls : Config) (env : environ) : string :=
  let out := print "=== Test Configuration ===" EmptyString in
  let out := print ("TEST_ENV: " +:+ getenv_default env "TEST_ENV" "<not-set>") out in
  let out := print ("BASE_URL: " +:+ BASE_URL cls) out in
  let out := print ("DEFAULT_TIMEOUT: " +:+ pystr.of_int (DEFAULT_TIMEOUT cls)) out in
  let out := print ("HEADLESS: " +:+ pystr.of_bool (HEADLESS cls)) out in
  let out := print ("DEFAULT_BROWSER: " +:+ DEFAULT_BROWSER cls) out in
  let out := print ("TEST_DATA_PATH: " +:+ TEST_DATA_PATH cls) out in
  print "===========================" out.

End config.

(* ===================================================================== *)
(** ** test_data/airports.py                                              *)
(* ===================================================================== *)

Module airports.

Definition AIRPORT_MAPPINGS : gmap string string :=
  {[ "RTM" := "Rome, Italy"; "MAD" := "Madrid, Spain" ]}.

End airports.

(* ===================================================================== *)
(** ** The browser-automation surface (Playwright's sync API)             *)
(* ===================================================================== *)

Module playwright.

(** The [name=] argument of [get_by_role]: a text or a compiled
    regular expression. *)
Inductive NamePattern :=
| text (s : string)
| re_compile (pattern : string).

(** Locators are descriptions of how to find an element; building one
    does not touch the page. *)
Inductive Locator :=
| locator (selector : string)
| get_by_role (role : string) (name : NamePattern)
| get_by_label (label : string)
| first (l : Locator).

(** The calls that reach the browser. *)
Inductive Call :=
| goto (url : string)
| wait_for_load_state (state : string)
| is_visible (l : Locator) (timeout : option Z)
| is_checked (l : Locator)
| click (l : Locator) (timeout : option Z)
| fill (l : Locator) (value : string).

(** What a call comes back with: a value (its truth value is all the
    page object ever looks at) or an exception of the library
    ([Error], [TimeoutError]) carrying a message. *)
Inductive Response :=
| returned (truth : bool)
| raised (message : string).

(** A live page: every call answers and moves the page to a new state. *)
Class Playwright (Page : Type) := {
  perform : Call → Page → Response * Page;
}.

End playwright.

(* ===================================================================== *)
(** ** Exceptions and the monad of page-object code                       *)
(* ===================================================================== *)

Module py.

(** The exception classes met in this code base; all derive from
    [Exception]. *)
Inductive exn :=
| ValueError (message : string)
| OverflowError (message : string)
| PlaywrightError (message : string).

(** [str(e)] *)
Definition str_exn (e : exn) : string :=
  match e with
  | ValueError m | OverflowError m | PlaywrightError m => m
  end.

Inductive Result (A : Type) :=
| Return (a : A)
| Raise (e : exn).
Arguments Return {A} a.
Arguments Raise {A} e.

(** What a run can see and change: the page, the current date, the
    browser calls made so far with what each came back with (oldest
    first) and the lines printed. *)
Record World (Page : Type) := {
  page : Page;
  today : datetime.date;
  ui_log : list (playwright.Call * playwright.Response);
  stdout : list string;
}.
Arguments page {Page} _.
Arguments today {Page} _.
Arguments ui_log {Page} _.
Arguments stdout {Page} _.

(** Computations that read and change the world and may raise. *)
Definition PO (Page : Type) (A : Type) : Type := World Page → Result A * World Page.

Section Monad.
Context {Page : Type}.

Definition ret {A} (a : A) : PO Page A := λ w, (Return a, w).

Definition bind {A B} (k : A → PO Page B) (m : PO Page A) : PO Page B :=
  λ w, match m w with
       | (Return a, w') => k a w'
       | (Raise e, w') => (Raise e, w')
       end.

(** [raise e] *)
Definition raise {A} (e : exn) : PO Page A := λ w, (Raise e, w).

(** [try: body / except Exception as e: handler(e)] *)
Definition try_except {A} (body : PO Page A) (handler : exn → PO Page A) : PO Page A :=
  λ w, match body w with
       | (Return a, w') => (Return a, w')
       | (Raise e, w') => handler e w'
       end.

(** [print(line)] *)
Definition print (line : string) : PO Page unit :=
  λ w, (Return (),
        {| page := page w; today := today w; ui_log := ui_log w;
           stdout := stdout w ++ [line] |}).

(** [datetime.date.today()] *)
Definition date_today : PO Page datetime.date := λ w, (Return (today w), w).

(** A browser call: it is logged, the page moves on, and a library
    exception becomes a Python exception. *)
Definition ui {browser : playwright.Playwright Page} (c : playwright.Call) : PO Page bool :=
  λ w, let '(r, p') := playwright.perform c (page w) in
       let w' := {| page := p'; today := today w; ui_log := ui_log w ++ [(c, r)];
                    stdout := stdout w |} in
       match r with
       | playwright.returned b => (Return b, w')
       | playwright.raised m => (Raise (PlaywrightError m), w')
       end.

End Monad.

#[global] Instance PO_ret {Page} : MRet (PO Page) := @ret Page.
#[global] Instance PO_bind {Page} : MBind (PO Page) := @bind Page.


(** The world after the browser call [c] that came back with [r] and left
  the page in state [p]. *)
Definition after_call {Page : Type} (w : World Page) (c : playwright.Call)
  (r : playwright.Response) (p : Page) : World Page :=
{| page := p; today := today w; ui_log := ui_log w ++ [(c, r)]; stdout := stdout w |}.

(** The browser calls a run has made, without their outcomes. *)
Definition calls {Page : Type} (w : World Page) : list playwright.Call := (ui_log w).*1.

(** The world after [line] was printed. *)
Definition after_print {Page : Type} (w : World Page) (line : string) : World Page :=
{| page := page w; today := today w; ui_log := ui_log w; stdout := stdout w ++ [line] |}.

End py.

(* ===================================================================== *)
(** ** tests/pages/home_page.py                                           *)
(* ===================================================================== *)

Module home_page.
Import playwright py.

(** The attributes of a [HomePage] object besides the page handle, which
    lives in the world. *)
Record HomePage := { url : string }.

(** The line [accept_privacy_consent] prints for a caught exception. *)
Definition consent_error_line (message : string) : string :=
"Error while accepting privacy consent: " +:+ message.

Section HomePage.
Context {Page : Type} {browser : Playwright Page}.
(** The [config] singleton imported by the module. *)
Variable config : config.Config.

Definition __init__ : HomePage := {| url := config.BASE_URL config |}.

(** *** Property-based locators *)
Definition privacy_popup_accept_button : Locator :=
  locator "[data-test='CookiesPopup-Accept']".
Definition trip_type_dropdown : Locator :=
  get_by_role "button" (re_compile "Return|One-way").
Definition one_way_option_in_dropdown : Locator :=
  locator "[data-test='ModePopupOption-oneWay']".
Definition from_airport_input : Locator :=
  locator "[data-test='PlacePickerInput-origin'] [data-test='SearchField-input']".
Definition to_airport_input : Locator :=
  locator "[data-test='PlacePickerInput-destination'] [data-test='SearchField-input']".
Definition departure_date_input : Locator :=
  locator "[data-test='SearchFieldDateInput']".
Definition search_button : Locator :=
  locator "[data-test='LandingSearchButton']".
Definition clear_button_on_departure : Locator :=
  locator "div[data-test='PlacePickerInput-origin'] div[data-test='PlacePickerInputPlace-close']".
Definition clear_button_on_arrival : Locator :=
  locator "div[data-test='PlacePickerInput-destination'] div[data-test='PlacePickerInputPlace-close']".
Definition search_results_list : Locator :=
  locator "div[data-test='ResultList-results']".

(** *** Operations *)

Definition accept_privacy_consent (self : HomePage) : PO Page bool :=
  try_except
    (visible ← ui (is_visible privacy_popup_accept_button (Some 5000));
     if (visible : bool) then
       ui (click privacy_popup_accept_button (Some (config.DEFAULT_TIMEOUT config)));;
       mret true
     else
       print "Privacy consent popup not visible";;
       mret false)
    (λ e,
       print (consent_error_line (str_exn e));;
       mret false).

Definition navigate (self : HomePage) : PO Page unit :=
  ui (goto (url self));;
  ui (wait_for_load_state "load");;
  accept_privacy_consent self;;
  mret ().

Definition select_one_way_trip (self : HomePage) : PO Page unit :=
  ui (click trip_type_dropdown None);;
  ui (click one_way_option_in_dropdown None);;
  mret ().

Definition airport_not_found (airport_code : string) : exn :=
  ValueError ("Airport code '" +:+ airport_code +:+ "' not found in mappings").

Definition set_departure_airport (self : HomePage) (airport_code : string) : PO Page unit :=
  match airports.AIRPORT_MAPPINGS !! airport_code with
  | None => raise (airport_not_found airport_code)
  | Some full_airport_name =>
      visible ← ui (is_visible clear_button_on_departure None);
      (if (visible : bool) then ui (click clear_button_on_departure None) else mret false);;
      ui (click from_airport_input None);;
      ui (fill from_airport_input airport_code);;
      let airport_button := get_by_role "button" (text (full_airport_name +:+ " Add")) in
      ui (click airport_button None);;
      mret ()
  end.

Definition set_arrival_airport (self : HomePage) (airport_code : string) : PO Page unit :=
  match airports.AIRPORT_MAPPINGS !! airport_code with
  | None => raise (airport_not_found airport_code)
  | Some full_airport_name =>
      visible ← ui (is_visible clear_button_on_arrival None);
      (if (visible : bool) then ui (click clear_button_on_arrival None) else mret false);;
      ui (click to_airport_input None);;
      ui (fill to_airport_input airport_code);;
      let airport_button := get_by_role "button" (text (full_airport_name +:+ " Add")) in
      ui (click airport_button None);;
      mret ()
  end.

(** The calendar cell for a formatted date. *)
Definition date_cell (target_date_str : string) : Locator :=
  locator ("div[data-test='CalendarDay'][data-value='" +:+ target_date_str +:+ "']").

Definition set_dates_button : Locator := locator "[data-test='SearchFormDoneButton']".

(** [datetime.date.today() + datetime.timedelta(days=total_days)] *)
Definition today_plus (total_days : Z) : PO Page datetime.date :=
  today ← date_today;
  match datetime.timedelta total_days with
  | None =>
      raise (OverflowError ("days=" +:+ pystr.of_int total_days
                            +:+ "; must have magnitude <= 999999999"))
  | Some delta =>
      match datetime.add today delta with
      | None => raise (OverflowError "date value out of range")
      | Some target_date => mret target_date
      end
  end.

Definition set_departure_date (self : HomePage) (total_days : Z) : PO Page unit :=
  ui (click departure_date_input None);;
  target_date ← today_plus total_days;
  let target_date_str := datetime.strftime_Y_m_d target_date in
  ui (click (date_cell target_date_str) None);;
  ui (click set_dates_button None);;
  mret ().

Definition accommodation_checkbox : Locator :=
  get_by_label "Check accommodation with Kiwi.com Hotels".
Definition checkbox_icon : Locator :=
  first (locator ".orbit-checkbox-icon-container > .orbit-icon").

Definition uncheck_accommodation_option (self : HomePage) : PO Page unit :=
  checked ← ui (is_checked accommodation_checkbox);
  if (checked : bool) then ui (click checkbox_icon None);; mret ()
  else mret ().

Definition click_search_button (self : HomePage) : PO Page unit :=
  ui (click search_button None);;
  mret ().

End HomePage.

End home_page.

(* ===================================================================== *)
(** ** tests/steps/test_basic_search_steps.py                             *)
(* ===================================================================== *)

Module steps.
Import playwright py.

Section Steps.
Context {Page : Type} {browser : Playwright Page}.
Variable config : config.Config.

Definition select_one_way_trip : PO Page unit :=
  let home_page := home_page.__init__ config in
  home_page.select_one_way_trip home_page.

Definition set_departure_airport : PO Page unit :=
  let home_page := home_page.__init__ config in
  home_page.set_departure_airport home_page "RTM".

Definition set_arrival_airport : PO Page unit :=
  let home_page := home_page.__init__ config in
  home_page.set_arrival_airport home_page "MAD".

Definition unsupported_time_unit (unit : string) : exn :=
  ValueError ("Unsupported time unit: " +:+ unit
              +:+ ". Please use 'week(s)' or 'day(s)'.").

(** The step bound to
    [Set the departure time "{value:d}" {unit} in the future starting current date]. *)
Definition set_departure_time (value : Z) (unit : string) : PO Page () :=
  let home_page := home_page.__init__ config in
  total_days ←
    (if decide (unit = "week" ∨ unit = "weeks") then mret (value * 7)
     else if decide (unit = "day" ∨ unit = "days") then mret value
     else raise (unsupported_time_unit unit));
  home_page.set_departure_date home_page total_days.

Definition uncheck_accommodation_option : PO Page unit :=
  let home_page := home_page.__init__ config in
  home_page.uncheck_accommodation_option home_page.

Definition click_search_button : PO Page unit :=
  let home_page := home_page.__init__ config in
  home_page.click_search_button home_page.

End Steps.

End steps.

(* ===================================================================== *)
(** ** conftest.py                                                        *)
(* ===================================================================== *)

Module conftest.

(** What the failure hook leaves behind: an attachment named
    [failure_screenshot] or one of its two printed diagnostics. *)
Inductive HookEvent (Page : Type) :=
| screenshot_attached (page : Page) (png : string)
| capture_failed (error : string)
| page_not_available.
Arguments screenshot_attached {Page} _ _.
Arguments capture_failed {Page} _.
Arguments page_not_available {Page}.

(** The module's global and what the hook has produced so far. *)
Record Globals (Page : Type) := {
  _test_failed_page : option Page;
  hook_events : list (HookEvent Page);
}.
Arguments _test_failed_page {Page} _.
Arguments hook_events {Page} _.

(** A generator stopped at its [yield]: the state it left, the value it
    handed out, and the code still to run when it is resumed. *)
Record Suspended (Page : Type) := {
  at_yield : Globals Page;
  yielded : Page;
  resume : Globals Page → Globals Page;
}.
Arguments at_yield {Page} _.
Arguments yielded {Page} _.
Arguments resume {Page} _ _.

Inductive Phase := setup | call | teardown.
Inductive Outcome := passed | failed | skipped.

(** The report pytest builds for one phase of one test. *)
Record TestReport := { when : Phase; outcome : Outcome }.

(** A test as the runner sees it: the page its base fixture provides and
    how its body ends when run on the page handed to it. *)
Record TestItem (Page : Type) := {
  item_page : Page;
  item_body : Page → Outcome;
}.
Arguments item_page {Page} _.
Arguments item_body {Page} _ _.

(** A test of a session: one that requests the [page] fixture, or one
    that does not, given by how its body ends. *)
Inductive SessionItem (Page : Type) :=
| uses_page (t : TestItem Page)
| no_page (body : Outcome).
Arguments uses_page {Page} _.
Arguments no_page {Page} _.

Section Harness.
Context {Page : Type}.
(** [page.screenshot(full_page=True)] followed by [allure.attach]: the
    image, or the message of the exception either of them raised. *)
Variable screenshot : Page → string + string.

(** The module body: [_test_failed_page = None]. *)
Definition initial : Globals Page :=
  {| _test_failed_page := None; hook_events := [] |}.

Definition set_test_failed_page (v : option Page) (g : Globals Page) : Globals Page :=
  {| _test_failed_page := v; hook_events := hook_events g |}.

(** The [page] fixture: a generator with one [yield]. *)
Definition page (page : Page) (g : Globals Page) : Suspended Page :=
  {| at_yield := set_test_failed_page (Some page) g;
     yielded := page;
     resume := set_test_failed_page None |}.

Definition emit (e : HookEvent Page) (g : Globals Page) : Globals Page :=
  {| _test_failed_page := _test_failed_page g; hook_events := hook_events g ++ [e] |}.

(** [pytest_runtest_makereport], the part after [outcome.get_result()]. *)
Definition pytest_runtest_makereport (report : TestReport) (g : Globals Page) : Globals Page :=
  match when report, outcome report with
  | call, failed =>
      match _test_failed_page g with
      | Some page =>
          match screenshot page with
          | inr png => emit (screenshot_attached page png) g
          | inl e => emit (capture_failed e) g
          end
      | None => emit page_not_available g
      end
  | _, _ => g
  end.

(** *** The runner's protocol for one test: setup, call, teardown, each
    followed by its report. *)

Definition setup_phase (t : TestItem Page) (g : Globals Page) : Suspended Page :=
  let s := page (item_page t) g in
  {| at_yield := pytest_runtest_makereport {| when := setup; outcome := passed |} (at_yield s);
     yielded := yielded s;
     resume := resume s |}.

Definition call_phase (t : TestItem Page) (s : Suspended Page) : Globals Page :=
  pytest_runtest_makereport
    {| when := call; outcome := item_body t (yielded s) |} (at_yield s).

Definition teardown_phase (s : Suspended Page) (g : Globals Page) : Globals Page :=
  pytest_runtest_makereport {| when := teardown; outcome := passed |} (resume s g).

Definition run_test (t : TestItem Page) (g : Globals Page) : Globals Page :=
  let s := setup_phase t g in
  teardown_phase s (call_phase t s).

(** Tests run one after the other. *)
Definition run_session (tests : list (TestItem Page)) (g : Globals Page) : Globals Page :=
  fold_left (λ g t, run_test t g) tests g.

(** *** Sessions in which some tests do not use the page *)

(** A test that does not request the [page] fixture: no code of the
    fixture runs for it, the hook still sees its three reports. *)
Definition run_test_without_page (body : Outcome) (g : Globals Page) : Globals Page :=
  pytest_runtest_makereport {| when := teardown; outcome := passed |}
    (pytest_runtest_makereport {| when := call; outcome := body |}
       (pytest_runtest_makereport {| when := setup; outcome := passed |} g)).

Definition run_item (i : SessionItem Page) (g : Globals Page) : Globals Page :=
  match i with
  | uses_page t => run_test t g
  | no_page body => run_test_without_page body g
  end.

Definition run_items (items : list (SessionItem Page)) (g : Globals Page) : Globals Page :=
  fold_left (λ g i, run_item i g) items g.

End Harness.

(** *** Session fixtures *)

(** The mapping returned by [browser_type_launch_args]. *)
Record LaunchArgs := {
  headless : bool;
  args : list string;
  slow_mo : Z;
}.

Definition browser_type_launch_args (config : config.Config) : LaunchArgs :=
  {| headless := config.HEADLESS config;
     args :=
       [ "--disable-blink-features=AutomationControlled";
      "--disable-dev-shm-usage";
      "--no-first-run";
      "--no-default-browser-check";
      "--disable-background-networking";
      "--disable-background-timer-throttling";
      "--disable-backgrounding-occluded-windows";
      "--disable-breakpad";
      "--disable-client-side-phishing-detection";
      "--disable-default-apps";
      "--disable-extensions";
      "--disable-features=IsolateOrigins,site-per-process,Translate,AudioServiceOutOfProcess";
      "--disable-hang-monitor";
      "--disable-ipc-flooding-protection";
      "--disable-popup-blocking";
      "--disable-prompt-on-repost";
      "--disable-renderer-backgrounding";
      "--force-color-profile=srgb";
      "--metrics-recording-only";
      "--no-sandbox";
      "--password-store=basic";
      "--use-mock-keychain" ];
     slow_mo := 25 |}.

(** *** What a session is expected to leave behind *)

Section Expected.
Context {Page : Type}.
Variable screenshot : Page → string + string.

(** The hook events one test should contribute: for a failing body, one
    event about the test's own page; otherwise none. *)
Definition events_of_test (t : TestItem Page) : list (HookEvent Page) :=
  match item_body t (item_page t) with
  | failed =>
      [ match screenshot (item_page t) with
        | inr png => screenshot_attached (item_page t) png
        | inl e => capture_failed e
        end ]
  | _ => []
  end.

(** For a test without the page: the diagnostic that no page is
    available when its body fails, nothing otherwise. *)
Definition events_of_item (i : SessionItem Page) : list (HookEvent Page) :=
  match i with
  | uses_page t => events_of_test t
  | no_page failed => [ page_not_available ]
  | no_page _ => []
  end.

(** Whether the body of a test fails. *)
Definition fails (i : SessionItem Page) : bool :=
  match i with
  | uses_page t => match item_body t (item_page t) with failed => true | _ => false end
  | no_page failed => true
  | no_page _ => false
  end.

End Expected.

End conftest.


(* ===================================================================== *)
(** ** Pages and worlds to run the code on                                *)
(* ===================================================================== *)

Module browsers.
Import playwright py.

(** A page on which every call succeeds and every query answers yes. *)
Definition cooperative : Playwright () :=
  {| perform := λ _ p, (returned true, p) |}.



(** A page that answers from a script, one response per call; once the
    script is used up, calls succeed and queries answer no. *)
Definition scripted : Playwright (list Response) :=
  {| perform := λ _ p,
       match p with
       | r :: rest => (r, rest)
       | [] => (returned false, [])
       end |}.

(** A page that is only the accommodation checkbox: the state is whether
    it is checked, and a click on the first icon toggles it. *)
Definition checkbox : Playwright bool :=
  {| perform := λ c checked,
       match c with
       | is_checked _ => (returned checked, checked)
       | click (first _) _ => (returned true, negb checked)
       | _ => (returned true, checked)
       end |}.

(** The world at the start of a run. *)
Definition world {Page : Type} (p : Page) (d : datetime.date) : World Page :=
  {| page := p; today := d; ui_log := []; stdout := [] |}.

Definition a_day : datetime.date :=
  {| datetime.year := 2024; datetime.month := 2; datetime.day := 25 |}.

Definition a_config : config.Config :=
  fst (config.Config_of (database := unicode.sample) 4300 ∅).

End browsers.

(* ===================================================================== *)
(** ** Error policies for page-object code                                *)
(* ===================================================================== *)

Module policy.
Import playwright py home_page.

Section Policy.
Context {Page : Type} {browser : Playwright Page}.

(** A logged call that came back with a value. *)
Definition came_back (entry : Call * Response) : Prop := ∃ b, entry.2 = returned b.


(** A computation without a handler: its browser calls are made one after
    the other, and the first one that raises ends the computation with
    that very exception; when it ends any other way, every call it made
    came back. *)
Definition propagates {A : Type} (m : PO Page A) : Prop :=
  ∀ w, ∃ entries, ui_log (m w).2 = ui_log w ++ entries ∧
    match (m w).1 with
    | Raise (PlaywrightError message) =>
        ∃ made c, entries = made ++ [(c, raised message)] ∧ Forall came_back made
    | _ => Forall came_back entries
    end.

End Policy.


(** A browser on which every call comes back. *)
Definition always_returns {Page : Type} (browser : Playwright Page) : Prop :=
  ∀ c p, ∃ b p', perform c p = (returned b, p').

(** Date picking in the specification's words: for every non-negative
    offset, on a page that plays along, the calendar cell of today plus
    that many days gets clicked. *)
Definition every_offset_selects_its_day : Prop :=
  ∀ (Page : Type) (browser : Playwright Page) (self : HomePage)
    (total_days : Z) (w : World Page),
    always_returns browser → datetime.valid (today w) → 0 <= total_days →
    click (date_cell (datetime.strftime_Y_m_d
             (Nat.iter (Z.to_nat total_days) datetime.next_day (today w)))) None
      ∈ calls (set_departure_date self total_days w).2.

(** Integer settings in the specification's words: a numeric text is
    read as the integer it denotes, any other text gives the default
    and a warning. *)
Definition integer_settings_read_exactly {database : unicode.UnicodeData}
    (max_str_digits : Z) : Prop :=
  ∀ (env : config.environ) (name raw : string) (default : Z),
    config.getenv env name = Some raw →
    (∀ v n, numeral.reads_as (unicode.code_points raw) v n →
       config._get_env_int max_str_digits env name default = (v, [])) ∧
    ((∀ v n, ¬ numeral.reads_as (unicode.code_points raw) v n) →
       config._get_env_int max_str_digits env name default =
         (default,
          [config.RuntimeWarning (config.invalid_integer_message name raw default)])).

End policy.

(* ===================================================================== *)
(** * Properties                                                          *)
(* ===================================================================== *)

(** ** Texts: stripping, decoding, lower case *)

(** Comparisons of code points, turned into arithmetic. *)
Ltac bool_lia :=
  unfold unicode.two, unicode.three, unicode.four, unicode.continuation,
    unicode.isspace, unicode.ascii_lower, numeral.blank in *;
  repeat (progress rewrite ?andb_true_iff, ?orb_true_iff, ?andb_false_iff, ?orb_false_iff,
            ?N.leb_le, ?N.leb_gt, ?N.eqb_eq, ?N.eqb_neq, ?N.ltb_lt, ?N.ltb_nlt in * );
  lia.

Section Stripping.
Import unicode.
Variable p : N → bool.

Lemma lstrip_by_app (s t : list N) :
  lstrip_by p (s ++ t) = if forallb p s then lstrip_by p t else lstrip_by p s ++ t.
Proof.
  induction s as [| c s IH]; [done |]. simpl.
  destruct (p c); simpl; [apply IH | done].
Qed.


Lemma rstrip_by_all (s : list N) : forallb p s = true → rstrip_by p s = [].
Proof.
  induction s as [| c s IH]; [done |]. simpl.
  intros [Hc Hs]%andb_true_iff. by rewrite IH, Hc.
Qed.

Lemma rstrip_by_app_all (s t : list N) :
  forallb p t = true → rstrip_by p (s ++ t) = rstrip_by p s.
Proof.
  intros Ht. induction s as [| c s IH]; simpl.
  - by apply rstrip_by_all.
  - by rewrite IH.
Qed.

Lemma rstrip_by_last (s : list N) (c : N) : p c = false → rstrip_by p (s ++ [c]) = s ++ [c].
Proof.
  intros Hc. induction s as [| d s IH]; simpl.
  - by rewrite Hc.
  - rewrite IH. by destruct s.
Qed.

(** What [lstrip_by] drops satisfies [p]. *)
Lemma lstrip_by_split (s : list N) :
  ∃ pre, s = pre ++ lstrip_by p s ∧ forallb p pre = true.
Proof.
  induction s as [| c s (pre & Heq & Hpre)]; simpl.
  - by exists [].
  - destruct (p c) eqn:Hc.
    + exists (c :: pre). split; [simpl; by f_equal | simpl; by rewrite Hc].
    + by exists [].
Qed.

Lemma rstrip_by_split (s : list N) :
  ∃ post, s = rstrip_by p s ++ post ∧ forallb p post = true.
Proof.
  induction s as [| c s (post & Heq & Hpost)]; simpl.
  - by exists [].
  - destruct (rstrip_by p s) as [| d r] eqn:Hr.
    + destruct (p c) eqn:Hc.
      * exists (c :: post). simpl in Heq. split; [simpl; by f_equal | simpl; by rewrite Hc].
      * exists post. simpl in *. split; [by f_equal | done].
    + exists post. split; [| done]. simpl. by f_equal.
Qed.


Variable f : N → N.
Hypothesis p_f : ∀ c, p (f c) = p c.

Lemma lstrip_by_fmap (s : list N) : lstrip_by p (f <$> s) = f <$> lstrip_by p s.
Proof.
  induction s as [| c s IH]; [done |]. cbn [fmap list_fmap lstrip_by].
  rewrite p_f. by destruct (p c).
Qed.

Lemma rstrip_by_fmap (s : list N) : rstrip_by p (f <$> s) = f <$> rstrip_by p s.
Proof.
  induction s as [| c s IH]; [done |]. cbn [fmap list_fmap rstrip_by].
  rewrite IH, p_f. destruct (rstrip_by p s); simpl; [| done].
  by destruct (p c).
Qed.

End Stripping.

Section Decoding.
Import unicode.
Open Scope N_scope.

Lemma decode_cons (b0 : N) (r0 : list N) :
  decode (b0 :: r0) =
    match r0 with
    | b1 :: r1 =>
        if two b0 b1 then ((b0 - 192) * 64 + (b1 - 128), [b0; b1]) :: decode r1
        else
          match r1 with
          | b2 :: r2 =>
              if three b0 b1 b2 then
                ((b0 - 224) * 4096 + (b1 - 128) * 64 + (b2 - 128), [b0; b1; b2])
                  :: decode r2
              else
                match r2 with
                | b3 :: r3 =>
                    if four b0 b1 b2 b3 then
                      ((b0 - 240) * 262144 + (b1 - 128) * 4096 + (b2 - 128) * 64
                         + (b3 - 128), [b0; b1; b2; b3]) :: decode r3
                    else (lone b0, [b0]) :: decode r0
                | [] => (lone b0, [b0]) :: decode r0
                end
          | [] => (lone b0, [b0]) :: decode r0
          end
    | [] => (lone b0, [b0]) :: decode r0
    end.
Proof. reflexivity. Qed.

Lemma two_false (b0 b1 : N) :
  b0 < 128 ∨ continuation b1 = false → two b0 b1 = false.
Proof. intros H. apply not_true_iff_false. intros Ht. bool_lia. Qed.

Lemma three_false (b0 b1 b2 : N) :
  b0 < 128 ∨ continuation b1 = false ∨ continuation b2 = false → three b0 b1 b2 = false.
Proof. intros H. apply not_true_iff_false. intros Ht. bool_lia. Qed.

Lemma four_false (b0 b1 b2 b3 : N) :
  b0 < 128 ∨ continuation b1 = false ∨ continuation b2 = false ∨ continuation b3 = false →
  four b0 b1 b2 b3 = false.
Proof. intros H. apply not_true_iff_false. intros Ht. bool_lia. Qed.

Lemma continuation_ascii (b : N) : b < 128 → continuation b = false.
Proof. intros H. apply not_true_iff_false. intros Ht. bool_lia. Qed.







(** *** Lower case of ASCII letters, on bytes and on characters *)

Lemma ascii_lower_cases (b : N) :
  ascii_lower b = b ∨ (65 ≤ b ≤ 90 ∧ ascii_lower b = b + 32).
Proof.
  unfold ascii_lower. destruct ((65 <=? b) && (b <=? 90)) eqn:H; [right | by left].
  split; [bool_lia | done].
Qed.

Lemma ascii_lower_high (c : N) : 128 ≤ c → ascii_lower c = c.
Proof. intros Hc. destruct (ascii_lower_cases c) as [? | [? _]]; [done | lia]. Qed.

Lemma two_ascii_lower (b0 b1 : N) : two (ascii_lower b0) (ascii_lower b1) = two b0 b1.
Proof.
  destruct (ascii_lower_cases b0) as [-> | [? ->]]; [| rewrite !two_false; [done | lia | lia]].
  destruct (ascii_lower_cases b1) as [-> | [? ->]]; [done |].
  rewrite !two_false; [done | |]; right; apply continuation_ascii; lia.
Qed.

Lemma three_ascii_lower (b0 b1 b2 : N) :
  three (ascii_lower b0) (ascii_lower b1) (ascii_lower b2) = three b0 b1 b2.
Proof.
  destruct (ascii_lower_cases b0) as [-> | [? ->]];
    [| rewrite !three_false; [done | lia | lia]].
  destruct (ascii_lower_cases b1) as [-> | [? ->]];
    [| rewrite !three_false; [done | |]; right; left; apply continuation_ascii; lia].
  destruct (ascii_lower_cases b2) as [-> | [? ->]]; [done |].
  rewrite !three_false; [done | |]; right; right; apply continuation_ascii; lia.
Qed.

Lemma four_ascii_lower (b0 b1 b2 b3 : N) :
  four (ascii_lower b0) (ascii_lower b1) (ascii_lower b2) (ascii_lower b3) = four b0 b1 b2 b3.
Proof.
  destruct (ascii_lower_cases b0) as [-> | [? ->]];
    [| rewrite !four_false; [done | lia | lia]].
  destruct (ascii_lower_cases b1) as [-> | [? ->]];
    [| rewrite !four_false; [done | |]; right; left; apply continuation_ascii; lia].
  destruct (ascii_lower_cases b2) as [-> | [? ->]];
    [| rewrite !four_false; [done | |]; right; right; left; apply continuation_ascii; lia].
  destruct (ascii_lower_cases b3) as [-> | [? ->]]; [done |].
  rewrite !four_false; [done | |]; right; right; right; apply continuation_ascii; lia.
Qed.

Lemma lone_ascii_lower (b : N) : lone (ascii_lower b) = ascii_lower (lone b).
Proof.
  unfold lone. destruct (N.ltb_spec b 128) as [Hb | Hb].
  - destruct (ascii_lower_cases b) as [-> | [? ->]].
    + by apply N.ltb_lt in Hb as ->.
    + assert ((b + 32 <? 128) = true) as -> by (apply N.ltb_lt; lia). done.
  - rewrite (ascii_lower_high b) by done. apply N.ltb_ge in Hb as Hb'. rewrite Hb'.
    rewrite ascii_lower_high; [done | lia].
Qed.

(** Lower-casing the ASCII letters of the bytes lower-cases the ASCII
    letters of the characters. *)
Lemma decode_ascii_lower (s : list N) :
  (decode (ascii_lower <$> s)).*1 = ascii_lower <$> (decode s).*1.
Proof.
  assert (Hlen : ∃ n, (length s ≤ n)%nat) by (by exists (length s)).
  destruct Hlen as [n Hn]. revert s Hn.
  induction n as [| n IH]; intros s Hn.
  { destruct s; [done | simpl in Hn; lia]. }
  destruct s as [| b0 s]; [done |].
  cbn [fmap list_fmap]. rewrite (decode_cons (ascii_lower b0)), (decode_cons b0 s).
  simpl in Hn.
  destruct s as [| b1 s]; cbn [fmap list_fmap].
  { cbn. by rewrite lone_ascii_lower. }
  rewrite two_ascii_lower. destruct (two b0 b1) eqn:H2.
  { cbn [fmap list_fmap fst]. rewrite <- IH by (simpl in Hn; lia). f_equal.
    assert (194 ≤ b0 ∧ 128 ≤ b1) as [? ?] by bool_lia.
    rewrite !ascii_lower_high by lia. done. }
  destruct s as [| b2 s]; cbn [fmap list_fmap].
  { cbn [fst]. rewrite lone_ascii_lower. f_equal. apply (IH [b1]). simpl in *. lia. }
  rewrite three_ascii_lower. destruct (three b0 b1 b2) eqn:H3.
  { cbn [fmap list_fmap fst]. rewrite <- IH by (simpl in Hn; lia). f_equal.
    assert (224 ≤ b0 ∧ 128 ≤ b1 ∧ 128 ≤ b2 ∧ (b0 = 224 → 160 ≤ b1)) as (? & ? & ? & ?)
      by bool_lia.
    rewrite !ascii_lower_high by lia. done. }
  destruct s as [| b3 s]; cbn [fmap list_fmap].
  { cbn [fst]. rewrite lone_ascii_lower. f_equal. apply (IH [b1; b2]). simpl in *. lia. }
  rewrite four_ascii_lower. destruct (four b0 b1 b2 b3) eqn:H4.
  { cbn [fmap list_fmap fst]. rewrite <- IH by (simpl in Hn; lia). f_equal.
    assert (240 ≤ b0 ∧ 128 ≤ b1 ∧ 128 ≤ b2 ∧ 128 ≤ b3 ∧ (b0 = 240 → 144 ≤ b1))
      as (? & ? & ? & ? & ?) by bool_lia.
    rewrite !ascii_lower_high by lia. done. }
  cbn [fmap list_fmap fst]. rewrite lone_ascii_lower. f_equal.
  apply (IH (b1 :: b2 :: b3 :: s)). simpl in *. lia.
Qed.

Lemma N_of_ascii_bound (c : ascii) : N_of_ascii c < 256.
Proof. destruct c as [[] [] [] [] [] [] [] []]; reflexivity. Qed.

Lemma bytes_lower (s : string) : bytes (pystr.lower s) = ascii_lower <$> bytes s.
Proof.
  induction s as [| c s IH]; [done |]. cbn [pystr.lower bytes fmap list_fmap].
  rewrite IH. f_equal. unfold pystr.lower_char, ascii_lower.
  destruct ((65 <=? N_of_ascii c) && (N_of_ascii c <=? 90)) eqn:H; [| done].
  apply N_ascii_embedding. pose proof (N_of_ascii_bound c). bool_lia.
Qed.

Lemma code_points_lower (s : string) :
  code_points (pystr.lower s) = ascii_lower <$> code_points s.
Proof. unfold code_points. by rewrite bytes_lower, decode_ascii_lower. Qed.

Lemma isspace_ascii_lower (c : N) : isspace (ascii_lower c) = isspace c.
Proof.
  destruct (ascii_lower_cases c) as [-> | [Hc ->]]; [done |].
  transitivity false; [| symmetry]; apply not_true_iff_false; intros Ht; bool_lia.
Qed.

Lemma strip_ascii_lower (l : list N) : strip (ascii_lower <$> l) = ascii_lower <$> strip l.
Proof.
  unfold strip.
  by rewrite lstrip_by_fmap, rstrip_by_fmap by apply isspace_ascii_lower.
Qed.

Context {database : UnicodeData}.

Lemma lower_full_ascii_lower (c : N) : lower_full (ascii_lower c) = lower_full c.
Proof.
  destruct (ascii_lower_cases c) as [-> | [Hc Heq]]; [done |].
  unfold lower_full.
  assert ((c <? 128) = true) as -> by (apply N.ltb_lt; lia).
  assert ((ascii_lower c <? 128) = true) as -> by (apply N.ltb_lt; lia).
  f_equal. rewrite Heq at 1. unfold ascii_lower at 1.
  assert ((65 <=? c + 32) && (c + 32 <=? 90) = false) as ->; [| done].
  apply not_true_iff_false. intros Ht. bool_lia.
Qed.

Lemma cased_ascii_lower (c : N) : cased (ascii_lower c) = cased c.
Proof.
  destruct (ascii_lower_cases c) as [-> | [Hc ->]]; [done |].
  unfold cased.
  assert ((c <? 128) = true) as -> by (apply N.ltb_lt; lia).
  assert ((c + 32 <? 128) = true) as -> by (apply N.ltb_lt; lia).
  transitivity true; [| symmetry]; bool_lia.
Qed.

Lemma case_ignorable_ascii_lower (c : N) : case_ignorable (ascii_lower c) = case_ignorable c.
Proof.
  destruct (ascii_lower_cases c) as [-> | [Hc ->]]; [done |].
  unfold case_ignorable.
  assert ((c <? 128) = true) as -> by (apply N.ltb_lt; lia).
  assert ((c + 32 <? 128) = true) as -> by (apply N.ltb_lt; lia).
  transitivity false; [| symmetry]; apply not_true_iff_false; intros Ht; bool_lia.
Qed.

Lemma first_significant_ascii_lower (l : list N) :
  first_significant (ascii_lower <$> l) = ascii_lower <$> first_significant l.
Proof.
  induction l as [| c l IH]; [done |]. cbn [fmap list_fmap first_significant].
  rewrite case_ignorable_ascii_lower. by destruct (case_ignorable c).
Qed.

Lemma final_sigma_ascii_lower (before after : list N) :
  final_sigma (ascii_lower <$> before) (ascii_lower <$> after) = final_sigma before after.
Proof.
  unfold final_sigma. rewrite !first_significant_ascii_lower.
  destruct (first_significant before), (first_significant after); simpl;
    by rewrite ?cased_ascii_lower.
Qed.

Lemma lower_from_ascii_lower (before l : list N) :
  lower_from (ascii_lower <$> before) (ascii_lower <$> l) = lower_from before l.
Proof.
  revert before. induction l as [| c l IH]; intros before; [done |].
  cbn [fmap list_fmap lower_from].
  rewrite final_sigma_ascii_lower, lower_full_ascii_lower.
  rewrite <- (IH (c :: before)). cbn [fmap list_fmap]. f_equal.
  destruct (ascii_lower_cases c) as [-> | [Hc ->]]; [done |].
  assert ((c + 32 =? 931) = false) as -> by (apply N.eqb_neq; lia).
  assert ((c =? 931) = false) as -> by (apply N.eqb_neq; lia). done.
Qed.

(** What [strip] and [lower] leave of a text does not depend on the case
    of its ASCII letters. *)
Lemma normalized_ascii_lower (s : string) :
  lower (strip (code_points (pystr.lower s))) = lower (strip (code_points s)).
Proof.
  rewrite code_points_lower, strip_ascii_lower. apply (lower_from_ascii_lower []).
Qed.

End Decoding.

(** ** Configuration: typed accessors *)

Section ConfigAccessors.
Import config.
Context {database : unicode.UnicodeData}.

Lemma elem_of_truthy (s : list N) :
  s ∈ truthy ↔ s ∈ unicode.code_points <$> ["1"; "true"; "yes"; "on"].
Proof.
  unfold truthy. cbn [fmap list_fmap].
  rewrite !elem_of_union, !elem_of_singleton, !elem_of_cons, elem_of_nil.
  tauto.
Qed.

Lemma elem_of_falsy (s : list N) :
  s ∈ falsy ↔ s ∈ unicode.code_points <$> ["0"; "false"; "no"; "off"].
Proof.
  unfold falsy. cbn [fmap list_fmap].
  rewrite !elem_of_union, !elem_of_singleton, !elem_of_cons, elem_of_nil.
  tauto.
Qed.

Lemma truthy_not_falsy (s : list N) : s ∈ truthy → s ∉ falsy.
Proof.
  rewrite elem_of_truthy, elem_of_falsy. cbn [fmap list_fmap].
  rewrite !elem_of_cons, !elem_of_nil.
  intros [-> | [-> | [-> | [-> | []]]]]; intros [? | [? | [? | [? | []]]]]; discriminate.
Qed.

(** C1. When the variable is set, the parser looks only at the text as
    [strip] and [lower] leave it: one of 1/true/yes/on gives True, one
    of 0/false/no/off gives False, and any other text gives the caller's
    default together with exactly one RuntimeWarning.  None of the first
    two cases warns. *)
Theorem get_env_bool_tokens (env : environ) (name raw : string) (default : bool) :
  getenv env name = Some raw →
  let normalized := unicode.lower (unicode.strip (unicode.code_points raw)) in
  (normalized ∈ unicode.code_points <$> ["1"; "true"; "yes"; "on"] →
     _get_env_bool env name default = (true, [])) ∧
  (normalized ∈ unicode.code_points <$> ["0"; "false"; "no"; "off"] →
     _get_env_bool env name default = (false, [])) ∧
  (normalized ∉ unicode.code_points <$> ["1"; "true"; "yes"; "on"] →
   normalized ∉ unicode.code_points <$> ["0"; "false"; "no"; "off"] →
     _get_env_bool env name default =
       (default, [RuntimeWarning (invalid_boolean_message name raw default)])).
Proof.
  intros Hraw normalized. unfold _get_env_bool. rewrite Hraw. fold normalized.
  rewrite <- elem_of_truthy, <- elem_of_falsy.
  split; [| split].
  - intros Ht. rewrite decide_True; done.
  - intros Hf. rewrite decide_False, decide_True; [done | done |].
    intros Ht. by apply truthy_not_falsy in Ht.
  - intros Ht Hf. rewrite !decide_False; done.
Qed.

End ConfigAccessors.

(** The theorem at work on [HEADLESS=" Yes "], on [HEADLESS="OFF"], on
    [HEADLESS="maybe"], and on [true] after a no-break space (U+00A0),
    which [strip] removes as it removes any whitespace. *)
Lemma get_env_bool_tokens_witness :
  config._get_env_bool (database := unicode.sample)
    {[ "HEADLESS" := " Yes " ]} "HEADLESS" false = (true, []) ∧
  config._get_env_bool (database := unicode.sample)
    {[ "HEADLESS" := "OFF" ]} "HEADLESS" true = (false, []) ∧
  config._get_env_bool (database := unicode.sample)
    {[ "HEADLESS" := "maybe" ]} "HEADLESS" true =
    (true, [config.RuntimeWarning
              "Invalid boolean value for HEADLESS: 'maybe'. Using default True"]) ∧
  config._get_env_bool (database := unicode.sample)
    {[ "HEADLESS" := unicode.of_bytes [194; 160]%N +:+ "true" ]} "HEADLESS" false
    = (true, []).
Proof.
  split_and!.
  - apply (get_env_bool_tokens (database := unicode.sample)
             {[ "HEADLESS" := " Yes " ]} "HEADLESS" " Yes " false);
      [reflexivity | apply list_elem_of_In; vm_compute; tauto].
  - apply (get_env_bool_tokens (database := unicode.sample)
             {[ "HEADLESS" := "OFF" ]} "HEADLESS" "OFF" true);
      [reflexivity | apply list_elem_of_In; vm_compute; tauto].
  - apply (get_env_bool_tokens (database := unicode.sample)
             {[ "HEADLESS" := "maybe" ]} "HEADLESS" "maybe" true);
      [reflexivity | |]; rewrite list_elem_of_In; vm_compute; intuition discriminate.
  - apply (get_env_bool_tokens (database := unicode.sample)
             {[ "HEADLESS" := unicode.of_bytes [194; 160]%N +:+ "true" ]} "HEADLESS"
             (unicode.of_bytes [194; 160]%N +:+ "true") false);
      [reflexivity | apply list_elem_of_In; vm_compute; tauto].
Defined.

(** ** Configuration: integer settings *)

Section NumericTexts.
Import unicode pyint numeral.
Context {database : UnicodeData}.
Open Scope N_scope.

Lemma Py_ISSPACE_blank (c : N) : Py_ISSPACE c = blank c.
Proof.
  apply eq_true_iff_eq. unfold Py_ISSPACE.
  destruct (N.ltb_spec c 128); split; intros Hc; bool_lia.
Qed.

Lemma isspace_blank (c : N) : 128 ≤ c → isspace c = blank c.
Proof.
  intros Hc. rewrite <- Py_ISSPACE_blank. unfold Py_ISSPACE.
  by apply N.ltb_ge in Hc as ->.
Qed.

Lemma digit_decimal (c : N) (d : Z) : digit c = Some d ↔ decimal c d.
Proof.
  unfold digit, decimal. destruct (N.ltb_spec c 128) as [Hc | Hc].
  - destruct ((48 <=? c) && (c <=? 57)) eqn:Hd.
    + assert (48 ≤ c ≤ 57) by bool_lia. split.
      * intros [= <-]. left. split; [done | lia].
      * intros [[_ ->] | [? _]]; [f_equal; lia | lia].
    + split; [done |]. intros [[? _] | [? _]]; [| lia].
      apply not_true_iff_false in Hd. destruct Hd. bool_lia.
  - rewrite (isspace_blank c Hc). destruct (blank c).
    + split; [done |]. intros [[? _] | (_ & ? & _)]; [lia | done].
    + destruct (to_decimal c) as [k |].
      * destruct (N.ltb_spec k 10) as [Hk | Hk]; split.
        -- intros [= <-]. right. split_and!; [done | done |]. by exists k.
        -- intros [[? _] | (_ & _ & k' & [= <-] & _ & ->)]; [lia | done].
        -- done.
        -- intros [[? _] | (_ & _ & k' & [= <-] & ? & _)]; lia.
      * split; [done |]. intros [[? _] | (_ & _ & k' & ? & _)]; [lia | done].
Qed.

Lemma digit_not_space (c : N) (d : Z) : digit c = Some d → Py_ISSPACE c = false.
Proof.
  rewrite Py_ISSPACE_blank. intros [[Hc _] | (_ & Hb & _)]%digit_decimal; [| done].
  apply not_true_iff_false. intros Ht. bool_lia.
Qed.

Lemma digit_not_mark (c : N) (d : Z) : digit c = Some d → c ≠ 43 ∧ c ≠ 45 ∧ c ≠ 95.
Proof. intros Hd. repeat split; intros ->; discriminate Hd. Qed.

Lemma digit_run_head (l : list N) (v n : Z) :
  digit_run l v n → ∃ c d rest, l = c :: rest ∧ digit c = Some d.
Proof.
  induction 1 as [c d Hd | l v n c d _ (c0 & d0 & rest & -> & Hd0) Hd
                  | l v n c d _ (c0 & d0 & rest & -> & Hd0) Hd].
  - apply digit_decimal in Hd. by exists c, d, [].
  - by exists c0, d0, (rest ++ [c]).
  - by exists c0, d0, (rest ++ [95; c]).
Qed.

Lemma digit_run_last (l : list N) (v n : Z) :
  digit_run l v n → ∃ init c d, l = init ++ [c] ∧ digit c = Some d.
Proof.
  destruct 1 as [c d Hd | l v n c d _ Hd | l v n c d _ Hd]; apply digit_decimal in Hd.
  - by exists [], c, d.
  - by exists l, c, d.
  - exists (l ++ [95]), c, d. by rewrite <- app_assoc.
Qed.

(** The loop of [digits] reads a run and goes on after it. *)
Lemma digits_run (l rest : list N) (v n : Z) :
  digit_run l v n → digits (l ++ rest) 0 0 false = digits rest v n true.
Proof.
  intros Hrun. revert rest.
  induction Hrun as [c d Hd | l v n c d _ IH Hd | l v n c d _ IH Hd]; intros rest;
    apply digit_decimal in Hd.
  - simpl. rewrite Hd. done.
  - rewrite <- app_assoc, IH. simpl. by rewrite Hd.
  - rewrite <- app_assoc, IH. simpl. by rewrite Hd.
Qed.

(** Conversely, what the loop accepts is a run. *)
Lemma digits_accepts (rest : list N) (acc count : Z) (after : bool) (v n : Z)
    (seen : list N) :
  digits rest acc count after = Some (v, n) →
  (if after then digit_run seen acc count
   else seen = [] ∧ acc = 0%Z ∧ count = 0%Z
        ∨ ∃ l, seen = l ++ [95] ∧ digit_run l acc count) →
  digit_run (seen ++ rest) v n.
Proof.
  revert acc count after seen. induction rest as [| c rest IH]; intros acc count after seen.
  - simpl. destruct after; [| done]. intros [= -> ->] Hseen. by rewrite app_nil_r.
  - simpl. destruct (digit c) as [d |] eqn:Hd.
    + apply digit_decimal in Hd. intros Hrest Hseen.
      replace (seen ++ c :: rest) with ((seen ++ [c]) ++ rest) by by rewrite <- app_assoc.
      apply (IH _ _ _ _ Hrest). destruct after.
      * by apply run_more.
      * destruct Hseen as [(-> & -> & ->) | (l & -> & Hl)].
        -- simpl. replace (10 * 0 + d)%Z with d by lia. by apply run_digit.
        -- rewrite <- app_assoc. by apply run_underscore.
    + destruct (c =? 95) eqn:Hc; [| done]. apply N.eqb_eq in Hc as ->.
      destruct after; [| done]. intros Hrest Hseen.
      replace (seen ++ 95 :: rest) with ((seen ++ [95]) ++ rest) by by rewrite <- app_assoc.
      apply (IH _ _ _ _ Hrest). right. by exists seen.
Qed.

Lemma digits_iff_run (l : list N) (v n : Z) :
  digits l 0 0 false = Some (v, n) ↔ digit_run l v n.
Proof.
  split.
  - intros Hd. apply (digits_accepts l 0 0 false v n [] Hd). by left.
  - intros Hrun. rewrite <- (app_nil_r l). by rewrite (digits_run l [] v n Hrun).
Qed.

Lemma forallb_blank (l : list N) :
  forallb Py_ISSPACE l = true ↔ Forall (λ c, blank c = true) l.
Proof.
  rewrite forallb_forall, Forall_forall. setoid_rewrite <- list_elem_of_In.
  by setoid_rewrite Py_ISSPACE_blank.
Qed.

(** [parse] accepts exactly the numeric texts, and reads of each the
    number it denotes and the number of its digits. *)
Lemma parse_reads_as (l : list N) (v n : Z) :
  parse l = Some (v, n) ↔ reads_as l v n.
Proof.
  unfold parse, reads_as. split.
  - destruct (lstrip_by_split Py_ISSPACE l) as (pre & Hl & Hpre%forallb_blank).
    destruct (rstrip_by_split Py_ISSPACE (lstrip_by Py_ISSPACE l))
      as (post & Hb & Hpost%forallb_blank).
    destruct (rstrip_by Py_ISSPACE (lstrip_by Py_ISSPACE l)) as [| c rest] eqn:Hbody; [done |].
    destruct (N.eqb_spec c 45) as [-> | Hminus].
    { destruct (digits rest 0 0 false) as [[m k] |] eqn:Hd; [| done].
      intros [= <- <-]. exists pre, [45], rest, post, m.
      split_and!; [by rewrite Hl at 1; rewrite Hb | done | done | by right; right |].
      by apply digits_iff_run. }
    destruct (N.eqb_spec c 43) as [-> | Hplus].
    { intros Hd. exists pre, [43], rest, post, v.
      split_and!; [by rewrite Hl at 1; rewrite Hb | done | done | by right; left |].
      by apply digits_iff_run. }
    intros Hd. exists pre, [], (c :: rest), post, v.
    split_and!; [by rewrite Hl at 1; rewrite Hb | done | done | by left |].
    by apply digits_iff_run.
  - intros (pre & sign & body & post & m & -> & Hpre%forallb_blank & Hpost%forallb_blank
            & Hsign & Hrun).
    destruct (digit_run_head _ _ _ Hrun) as (c & d & rest & Hbody & Hc).
    destruct (digit_run_last _ _ _ Hrun) as (init & c' & d' & Hbody' & Hc').
    pose proof (digit_not_space _ _ Hc) as Hns.
    pose proof (digit_not_space _ _ Hc') as Hns'.
    destruct (digit_not_mark _ _ Hc) as (Hplus & Hminus & _).
    apply digits_iff_run in Hrun.
    assert (Hstrip : rstrip_by Py_ISSPACE (lstrip_by Py_ISSPACE (pre ++ sign ++ body ++ post))
                     = sign ++ body).
    { rewrite lstrip_by_app, Hpre.
      assert (lstrip_by Py_ISSPACE (sign ++ body ++ post) = sign ++ body ++ post) as ->.
      { destruct Hsign as [[-> _] | [[-> _] | [-> _]]]; simpl app at 1.
        - rewrite Hbody. simpl. by rewrite Hns.
        - done.
        - done. }
      rewrite (app_assoc sign body post), (rstrip_by_app_all _ _ _ Hpost).
      rewrite Hbody', app_assoc. by apply rstrip_by_last. }
    rewrite Hstrip.
    destruct Hsign as [[-> ->] | [[-> ->] | [-> ->]]]; simpl app.
    + rewrite Hbody in *. simpl.
      destruct (N.eqb_spec c 45); [done |]. destruct (N.eqb_spec c 43); [done |]. done.
    + done.
    + simpl. by rewrite Hrun.
Qed.

(** A numeric text denotes one number. *)
Lemma reads_as_unique (l : list N) (v1 n1 v2 n2 : Z) :
  reads_as l v1 n1 → reads_as l v2 n2 → v1 = v2 ∧ n1 = n2.
Proof. intros H1%parse_reads_as H2%parse_reads_as. by simplify_eq. Qed.

Lemma within_limit_spec (max_str_digits n : Z) :
  pyint.within_limit max_str_digits n = true ↔ numeral.within_limit max_str_digits n.
Proof.
  unfold pyint.within_limit, numeral.within_limit.
  rewrite negb_true_iff, !andb_false_iff, !Z.ltb_ge. tauto.
Qed.

(** [int] reads a text as [v] exactly when the text is numeric, denotes
    [v], and has no more digits than the interpreter allows. *)
Lemma int_reads_as (max_str_digits : Z) (s : string) (v : Z) :
  int max_str_digits s = Some v ↔
  ∃ n, reads_as (code_points s) v n ∧ numeral.within_limit max_str_digits n.
Proof.
  unfold int. split.
  - destruct (parse (code_points s)) as [[v' n] |] eqn:Hp; [| done].
    destruct (pyint.within_limit max_str_digits n) eqn:Hl; [| done].
    intros [= <-]. exists n. split; [by apply parse_reads_as | by apply within_limit_spec].
  - intros (n & Hr%parse_reads_as & Hl%within_limit_spec). by rewrite Hr, Hl.
Qed.

End NumericTexts.

Section IntegerSetting.
Import config.
Context {database : unicode.UnicodeData}.

(** C6, as the code has it.  When the variable is set: a numeric text
    (blanks, an optional sign, decimal digits with single underscores
    between them, blanks) with no more digits than the interpreter
    allows in an integer text gives the number it denotes and no
    warning; a numeric text with more digits than that, and any text
    that is not numeric, give the caller's default and exactly one
    RuntimeWarning.  (The default is one [str] can print under any
    limit: up to 640 digits.) *)
Theorem get_env_int_parses (max_str_digits : Z) (env : environ)
    (name raw : string) (default : Z) :
  getenv env name = Some raw → Z.abs default < 10 ^ 640 →
  let text := unicode.code_points raw in
  (∀ v n, numeral.reads_as text v n → numeral.within_limit max_str_digits n →
     _get_env_int max_str_digits env name default = (v, [])) ∧
  (∀ v n, numeral.reads_as text v n → ¬ numeral.within_limit max_str_digits n →
     _get_env_int max_str_digits env name default =
       (default, [RuntimeWarning (invalid_integer_message name raw default)])) ∧
  ((∀ v n, ¬ numeral.reads_as text v n) →
     _get_env_int max_str_digits env name default =
       (default, [RuntimeWarning (invalid_integer_message name raw default)])).
Proof.
  intros Hraw _ text. unfold _get_env_int. rewrite Hraw.
  split_and!.
  - intros v n Hr Hl.
    assert (pyint.int max_str_digits raw = Some v) as -> by (apply int_reads_as; eauto).
    done.
  - intros v n Hr Hl.
    destruct (pyint.int max_str_digits raw) as [v' |] eqn:Hint; [| done].
    apply int_reads_as in Hint as (n' & Hr' & Hl').
    destruct (reads_as_unique _ _ _ _ _ Hr Hr') as [_ ->]. done.
  - intros Hnot.
    destruct (pyint.int max_str_digits raw) as [v' |] eqn:Hint; [| done].
    apply int_reads_as in Hint as (n' & Hr' & _). by destruct (Hnot v' n').
Qed.

End IntegerSetting.

(** The theorem at work on [DEFAULT_TIMEOUT=" 20_000 "] (blanks and an
    underscore), on the Arabic-Indic digits of 123 (U+0661 U+0662
    U+0663), on [DEFAULT_TIMEOUT="15s"], and on 4301 digits in an
    interpreter that allows 4300. *)
Lemma get_env_int_parses_witness :
  config._get_env_int (database := unicode.sample) 4300
    {[ "DEFAULT_TIMEOUT" := " 20_000 " ]} "DEFAULT_TIMEOUT" 15000 = (20000, []) ∧
  config._get_env_int (database := unicode.sample) 4300
    {[ "DEFAULT_TIMEOUT" := unicode.of_bytes [217; 161; 217; 162; 217; 163]%N ]}
    "DEFAULT_TIMEOUT" 15000 = (123, []) ∧
  config._get_env_int (database := unicode.sample) 4300
    {[ "DEFAULT_TIMEOUT" := "15s" ]} "DEFAULT_TIMEOUT" 15000 =
    (15000, [config.RuntimeWarning
               "Invalid integer value for DEFAULT_TIMEOUT: '15s'. Using default 15000"]) ∧
  config._get_env_int (database := unicode.sample) 4300
    {[ "DEFAULT_TIMEOUT" := pystr.mul "1" 4301 ]} "DEFAULT_TIMEOUT" 15000 =
    (15000, [config.RuntimeWarning
               (config.invalid_integer_message (database := unicode.sample)
                  "DEFAULT_TIMEOUT" (pystr.mul "1" 4301) 15000)]).
Proof.
  split_and!.
  - destruct (get_env_int_parses (database := unicode.sample) 4300
                {[ "DEFAULT_TIMEOUT" := " 20_000 " ]} "DEFAULT_TIMEOUT" " 20_000 " 15000)
      as (Hreads & _); [reflexivity | vm_compute; reflexivity |].
    apply (Hreads 20000 5).
    + apply parse_reads_as. vm_compute. reflexivity.
    + unfold numeral.within_limit. lia.
  - destruct (get_env_int_parses (database := unicode.sample) 4300
                {[ "DEFAULT_TIMEOUT" := unicode.of_bytes [217; 161; 217; 162; 217; 163]%N ]}
                "DEFAULT_TIMEOUT" (unicode.of_bytes [217; 161; 217; 162; 217; 163]%N) 15000)
      as (Hreads & _); [reflexivity | vm_compute; reflexivity |].
    apply (Hreads 123 3).
    + apply parse_reads_as. vm_compute. reflexivity.
    + unfold numeral.within_limit. lia.
  - destruct (get_env_int_parses (database := unicode.sample) 4300
                {[ "DEFAULT_TIMEOUT" := "15s" ]} "DEFAULT_TIMEOUT" "15s" 15000)
      as (_ & _ & Hother); [reflexivity | vm_compute; reflexivity |].
    apply Hother. intros v n Hr%parse_reads_as. vm_compute in Hr. discriminate.
  - destruct (get_env_int_parses (database := unicode.sample) 4300
                {[ "DEFAULT_TIMEOUT" := pystr.mul "1" 4301 ]} "DEFAULT_TIMEOUT"
                (pystr.mul "1" 4301) 15000)
      as (_ & Hlong & _); [reflexivity | vm_compute; reflexivity |].
    assert (∃ v, pyint.parse (database := unicode.sample)
                   (unicode.code_points (pystr.mul "1" 4301)) = Some (v, 4301))
      as [v Hv] by (eexists; vm_compute; reflexivity).
    apply (Hlong v 4301).
    + by apply parse_reads_as.
    + unfold numeral.within_limit. lia.
Defined.

(** C6 as the specification has it fails on a Python whose limit on the
    digits of an integer text is the default 4300: the text of 4301
    ones is numeric, yet the setting falls back to the default with a
    warning. *)
Lemma integer_settings_read_exactly_counterexample :
  ¬ policy.integer_settings_read_exactly (database := unicode.sample) 4300.
Proof.
  intros Hclaim.
  destruct (Hclaim {[ "DEFAULT_TIMEOUT" := pystr.mul "1" 4301 ]} "DEFAULT_TIMEOUT"
              (pystr.mul "1" 4301) 15000) as [Hnumeric _]; [reflexivity |].
  assert (∃ v, pyint.parse (database := unicode.sample)
                 (unicode.code_points (pystr.mul "1" 4301)) = Some (v, 4301))
    as [v Hv] by (eexists; vm_compute; reflexivity).
  apply parse_reads_as, Hnumeric in Hv.
  assert (snd (config._get_env_int (database := unicode.sample) 4300
                 {[ "DEFAULT_TIMEOUT" := pystr.mul "1" 4301 ]} "DEFAULT_TIMEOUT" 15000)
          ≠ []) as Hwarned by (vm_compute; discriminate).
  exact (Hwarned (f_equal snd Hv)).
Qed.

(** ** Configuration: the search for the environment file *)

Section EnvironmentFiles.
Import config.
Context {Path : Type} {pathlib : PathLib Path}.
Variable fs : FileSystem Path.

(** The loop stops at the first candidate that exists. *)
Lemma load_first_stops (before after : list Path) (p : Path) (env : environ) :
  (∀ q, q ∈ before → exists_ fs q = false) → exists_ fs p = true →
  load_first fs (before ++ p :: after) env =
    (dotenv_dict fs p true env ∪ env,
     [ {| dotenv_path := Some p; override := true |} ]).
Proof.
  intros Hbefore Hp. induction before as [| q before IH]; simpl.
  - by rewrite Hp.
  - rewrite (Hbefore q) by apply list_elem_of_here.
    apply IH. intros r Hr. apply Hbefore. by apply list_elem_of_further.
Qed.

(** C2. The candidates are, in this order, [env/<name>.env] and
    [<name>.env] when TEST_ENV holds a name, then always [env/test.env],
    [test.env] and [.env] (an unset or empty TEST_ENV gives the last
    three only).  The first candidate that exists is the only file
    loaded, with [override=True]: every key of the file takes the
    file's value in the process environment, already set or not, and
    the other keys are unchanged.  With TEST_ENV=staging, no
    [env/staging.env], no [staging.env] and an [env/test.env], the
    file loaded is [env/test.env]. *)
Theorem load_environment_search_order (env : environ) :
  (∀ name, getenv env "TEST_ENV" = Some name → name ≠ "" →
     candidate_paths env =
       [ joinpath (Path_of "env") (name +:+ ".env"); Path_of (name +:+ ".env");
         joinpath (Path_of "env") "test.env"; Path_of "test.env"; Path_of ".env" ]) ∧
  (getenv env "TEST_ENV" = None ∨ getenv env "TEST_ENV" = Some "" →
     candidate_paths env =
       [ joinpath (Path_of "env") "test.env"; Path_of "test.env"; Path_of ".env" ]) ∧
  (∀ before p after,
     candidate_paths env = before ++ p :: after →
     (∀ q, q ∈ before → exists_ fs q = false) → exists_ fs p = true →
     let loaded := _load_environment fs env in
     loaded.2 = [ {| dotenv_path := Some p; override := true |} ] ∧
     loaded.1 = dotenv_dict fs p true env ∪ env ∧
     (∀ key value, dotenv_dict fs p true env !! key = Some value →
        loaded.1 !! key = Some value) ∧
     (∀ key, dotenv_dict fs p true env !! key = None →
        loaded.1 !! key = env !! key)) ∧
  (getenv env "TEST_ENV" = Some "staging" →
   exists_ fs (joinpath (Path_of "env") "staging.env") = false →
   exists_ fs (Path_of "staging.env") = false →
   exists_ fs (joinpath (Path_of "env") "test.env") = true →
     _load_environment fs env =
       (dotenv_dict fs (joinpath (Path_of "env") "test.env") true env ∪ env,
        [ {| dotenv_path := Some (joinpath (Path_of "env") "test.env");
             override := true |} ])).
Proof.
  split; [| split; [| split]].
  - intros name Hname Hne. unfold candidate_paths. rewrite Hname.
    by rewrite decide_False.
  - intros [Hnone | Hempty]; unfold candidate_paths.
    + by rewrite Hnone.
    + by rewrite Hempty.
  - intros before p after Hcand Hbefore Hp loaded.
    assert (Hloaded : loaded = (dotenv_dict fs p true env ∪ env,
                                [ {| dotenv_path := Some p; override := true |} ])).
    { unfold loaded, _load_environment. rewrite Hcand. by apply load_first_stops. }
    rewrite Hloaded. simpl. split; [done | split; [done | split]].
    + intros key value Hkey. by apply lookup_union_Some_l.
    + intros key Hkey. by apply lookup_union_r.
  - intros Hname Hno1 Hno2 Hyes. unfold _load_environment, candidate_paths.
    rewrite Hname, decide_False by done.
    change ("staging" +:+ ".env") with "staging.env".
    simpl. by rewrite Hno1, Hno2, Hyes.
Qed.

End EnvironmentFiles.

(** The theorem at work: TEST_ENV=staging, [BASE_URL] already set by the
    system, only [env/test.env] and [.env] on disk. *)
Lemma load_environment_search_order_witness :
  let fs := config.fs_of_files {[ "env/test.env" := {[ "BASE_URL" := "https://t/" ]};
                                  ".env" := {[ "BASE_URL" := "https://d/" ]} ]} in
  let env : gmap string string := {[ "TEST_ENV" := "staging"; "BASE_URL" := "https://sys/" ]} in
  @config.candidate_paths _ config.posix_paths env =
    [ "env/staging.env"; "staging.env"; "env/test.env"; "test.env"; ".env" ] ∧
  @config._load_environment _ config.posix_paths fs env =
    ({[ "BASE_URL" := "https://t/" ]} ∪ env,
     [ {| config.dotenv_path := Some "env/test.env"; config.override := true |} ]) ∧
  (@config._load_environment _ config.posix_paths fs env).1 !! "BASE_URL" = Some "https://t/".
Proof.
  intros fs env.
  destruct (@load_environment_search_order _ config.posix_paths fs env)
    as (Horder & _ & Hfirst & Hstaging).
  split; [| split].
  - apply (Horder "staging"); [reflexivity | discriminate].
  - apply Hstaging; reflexivity.
  - apply (Hfirst [ "env/staging.env"; "staging.env" ] "env/test.env" [ "test.env"; ".env" ]).
    + reflexivity.
    + intros q Hq. apply list_elem_of_In in Hq.
      destruct Hq as [<- | [<- | []]]; reflexivity.
    + reflexivity.
    + reflexivity.
Defined.

(** ** The calendar of [datetime.date] *)

Section Calendar.
Import datetime.

Lemma month_tables_checked :
  forallb (fun leap => forallb (fun m => forallb (month_tables_agree leap m) (seqZ 1 31))
                          (seqZ 1 12)) [true; false] = true.
Proof. vm_compute. reflexivity. Qed.

Lemma month_tables (leap : bool) (m d : Z) :
  1 <= m <= 12 -> 1 <= d <= days_in_month_of leap m -> 
  month_tables_agree leap m d = true.
Proof.
  intros Hm Hd.
  assert (Hd31 : d <= 31).
  { unfold days_in_month_of in Hd. destruct ((m =? 2) && leap); [lia|].
    assert (Hcases : m = 1 \/ m = 2 \/ m = 3 \/ m = 4 \/ m = 5 \/ m = 6 \/ m = 7 \/ m = 8
                     \/ m = 9 \/ m = 10 \/ m = 11 \/ m = 12) by lia.
    destruct Hcases as [-> | [-> | [-> | [-> | [-> | [-> | [-> | [-> | [-> | [-> | [-> | ->]]]]]]]]]]];
      unfold item, _DAYS_IN_MONTH in Hd; simpl in Hd; lia. }
  pose proof month_tables_checked as Hall.
  rewrite forallb_forall in Hall.
  specialize (Hall leap). 
  assert (Hin : In leap [true; false]) by (destruct leap; simpl; auto).
  specialize (Hall Hin). rewrite forallb_forall in Hall.
  specialize (Hall m). rewrite <- list_elem_of_In, elem_of_seqZ in Hall.
  specialize (Hall ltac:(lia)). rewrite forallb_forall in Hall.
  apply Hall. rewrite <- list_elem_of_In, elem_of_seqZ. lia.
Qed.

Lemma div_mod_eq (n b q r : Z) : 0 <= r < b -> n = b * q + r -> n / b = q /\ n mod b = r.
Proof.
  intros Hr ->. split.
  - symmetry. apply (Z.div_unique _ _ q r); [lia | done].
  - symmetry. apply (Z.mod_unique _ _ q r); [lia | done].
Qed.

Lemma year_shape (y : Z) :
  1 <= y ->
  exists A c f e,
    y - 1 = 400 * A + 100 * c + 4 * f + e /\
    0 <= A /\ 0 <= c <= 3 /\ 0 <= f <= 24 /\ 0 <= e <= 3 /\
    _days_before_year y = 146097 * A + 36524 * c + 1461 * f + 365 * e /\
    _is_leap y = (e =? 3) && (negb (f =? 24) || (c =? 3)).
Proof.
  intros Hy.
  exists ((y - 1) / 400), ((y - 1) mod 400 / 100), ((y - 1) mod 100 / 4), ((y - 1) mod 4).
  split_and!; try (Z.div_mod_to_equations; lia).
  - unfold _days_before_year. cbv zeta. Z.div_mod_to_equations; lia.
  - unfold _is_leap.
    destruct (Z.eqb_spec (y mod 4) 0), (Z.eqb_spec (y mod 100) 0), (Z.eqb_spec (y mod 400) 0),
      (Z.eqb_spec ((y - 1) mod 4) 3), (Z.eqb_spec ((y - 1) mod 100 / 4) 24),
      (Z.eqb_spec ((y - 1) mod 400 / 100) 3); simpl; try reflexivity;
      exfalso; Z.div_mod_to_equations; lia.
Qed.

Lemma ord2ymd_of_day_number (y n : Z) :
  1 <= y -> 0 <= n <= 364 + (if _is_leap y then 1 else 0) ->
  _ord2ymd (_days_before_year y + n + 1) =
    if n =? 365 then {| year := y; month := 12; day := 31 |}
    else {| year := y; month := (month_and_day (_is_leap y) n).1;
            day := (month_and_day (_is_leap y) n).2 |}.
Proof.
  intros Hy Hn.
  destruct (year_shape y Hy) as (A & c & f & e & Hshape & HA & Hc & Hf & He & Hdby & Hleap).
  unfold _ord2ymd. cbv zeta. unfold _DI400Y, _DI100Y, _DI4Y.
  replace (_days_before_year y + n + 1 - 1)
    with (146097 * A + (36524 * c + 1461 * f + 365 * e + n)) by lia.
  rewrite Hleap in *.
  destruct (Z.eqb_spec n 365) as [-> | Hn365].
  - (* the last day of a leap year *)
    destruct (Z.eqb_spec e 3) as [He3 | He3]; [| simpl in Hn; lia].
    clear He; subst e.
    destruct (Z.eqb_spec f 24) as [Hf24 | Hf24]; [clear Hf; subst f |].
    + destruct (Z.eqb_spec c 3) as [Hc3 | Hc3]; [clear Hc; subst c | simpl in Hn; lia].
      destruct (div_mod_eq (146097 * A + (36524 * 3 + 1461 * 24 + 365 * 3 + 365)) 146097 A 146096)
        as [-> ->]; [lia | lia |].
      change (146096 / 36524) with 4. change (146096 mod 36524) with 0.
      change (0 / 1461) with 0. change (0 mod 1461) with 0. change (0 / 365) with 0.
      simpl. f_equal. lia.
    + destruct (div_mod_eq (146097 * A + (36524 * c + 1461 * f + 365 * 3 + 365)) 146097 A
                  (36524 * c + 1461 * f + 1460)) as [-> ->]; [lia | lia |].
      destruct (div_mod_eq (36524 * c + 1461 * f + 1460) 36524 c (1461 * f + 1460))
        as [-> ->]; [lia | lia |].
      destruct (div_mod_eq (1461 * f + 1460) 1461 f 1460) as [-> ->]; [lia | lia |].
      change (1460 / 365) with 4. change (1460 mod 365) with 0. simpl. f_equal. lia.
  - assert (Hn364 : n <= 364) by (destruct ((e =? 3) && (negb (f =? 24) || (c =? 3))); lia).
    destruct (div_mod_eq (146097 * A + (36524 * c + 1461 * f + 365 * e + n)) 146097 A
                (36524 * c + 1461 * f + 365 * e + n)) as [-> ->]; [lia | lia |].
    destruct (div_mod_eq (36524 * c + 1461 * f + 365 * e + n) 36524 c (1461 * f + 365 * e + n))
      as [-> ->]; [lia | lia |].
    destruct (div_mod_eq (1461 * f + 365 * e + n) 1461 f (365 * e + n)) as [-> ->]; [lia | lia |].
    destruct (div_mod_eq (365 * e + n) 365 e n) as [-> ->]; [lia | lia |].
    replace (e =? 4) with false by (symmetry; apply Z.eqb_neq; lia).
    replace (c =? 4) with false by (symmetry; apply Z.eqb_neq; lia).
    simpl orb. cbv iota.
    replace (A * 400 + 1 + c * 100 + f * 4 + e) with y by lia.
    unfold month_and_day. cbv zeta.
    destruct (n <? _); reflexivity.
Qed.

Lemma month_tables_valid (d : date) :
  valid d -> month_tables_agree (_is_leap (year d)) (month d) (day d) = true.
Proof. intros (Hy & Hm & Hd). by apply month_tables. Qed.

(** Unpacking the table check for a valid date. *)
Lemma month_facts (d : date) :
  valid d ->
  let leap := _is_leap (year d) in
  let n := _days_before_month (year d) (month d) + day d - 1 in
  0 <= n <= 364 + (if leap then 1 else 0) /\
  (n = 365 -> month d = 12 /\ day d = 31) /\
  (n <> 365 -> month_and_day leap n = (month d, day d)) /\
  (month d <> 12 ->
     _days_before_month (year d) (month d + 1) =
       _days_before_month (year d) (month d) + _days_in_month (year d) (month d)) /\
  28 <= _days_in_month (year d) (month d) <= 31 /\
  (month d = 12 ->
     _days_before_month (year d) 12 + _days_in_month (year d) 12 =
       365 + (if leap then 1 else 0)).
Proof.
  intros Hvalid leap n. pose proof (month_tables_valid d Hvalid) as Hcheck.
  destruct Hvalid as (Hy & Hm & Hd).
  unfold month_tables_agree in Hcheck.
  change (days_before_month_of (_is_leap (year d)) (month d) + day d - 1) with n in Hcheck.
  change (days_in_month_of (_is_leap (year d)) (month d))
    with (_days_in_month (year d) (month d)) in Hcheck.
  change (days_before_month_of (_is_leap (year d)) (month d))
    with (_days_before_month (year d) (month d)) in Hcheck.
  change (days_before_month_of (_is_leap (year d)) (month d + 1))
    with (_days_before_month (year d) (month d + 1)) in Hcheck.
  fold leap in Hcheck.
  replace (day d <=? _days_in_month (year d) (month d)) with true in Hcheck
    by (symmetry; apply Z.leb_le; lia).
  simpl in Hcheck.
  rewrite !andb_true_iff, !orb_true_iff, !Z.leb_le, !Z.eqb_eq, Z.ltb_lt in Hcheck.
  destruct Hcheck as ((((([Hn0 Hn1] & Hfind) & Hnext) & Hdim0) & Hdim1) & Hlast).
  split_and!; try lia.
  - intros Hn. rewrite Hn in Hfind. simpl in Hfind.
    rewrite andb_true_iff, !Z.eqb_eq in Hfind. done.
  - intros Hn. apply Z.eqb_neq in Hn. rewrite Hn in Hfind.
    destruct (month_and_day leap n) as [m' d'].
    rewrite andb_true_iff, !Z.eqb_eq in Hfind. by destruct Hfind as [-> ->].
  - intros Hm12. rewrite Hm12 in Hlast. destruct Hlast as [? | Hlast]; [lia | done].
Qed.

Lemma fromordinal_toordinal (d : date) : valid d -> fromordinal (toordinal d) = d.
Proof.
  intros Hvalid. destruct (month_facts d Hvalid) as (Hn & Hlast & Hfind & _).
  pose proof Hvalid as (Hy & _).
  unfold fromordinal, toordinal, _ymd2ord, MINYEAR in *.
  set (n := _days_before_month (year d) (month d) + day d - 1) in *.
  replace (_days_before_year (year d) + _days_before_month (year d) (month d) + day d)
    with (_days_before_year (year d) + n + 1) by (unfold n; lia).
  rewrite ord2ymd_of_day_number by lia.
  destruct d as [y m dd]. simpl in *.
  destruct (Z.eqb_spec n 365) as [Hn365 | Hn365].
  - destruct (Hlast Hn365) as [-> ->]. done.
  - by rewrite (Hfind Hn365).
Qed.

Lemma days_before_year_succ (y : Z) :
  1 <= y ->
  _days_before_year (y + 1) = _days_before_year y + 365 + (if _is_leap y then 1 else 0).
Proof.
  intros Hy. unfold _days_before_year, _is_leap. cbv zeta.
  replace (y + 1 - 1) with y by lia.
  destruct (Z.eqb_spec (y mod 4) 0), (Z.eqb_spec (y mod 100) 0), (Z.eqb_spec (y mod 400) 0);
    simpl; Z.div_mod_to_equations; lia.
Qed.

Lemma toordinal_next_day (d : date) :
  valid d -> toordinal (next_day d) = toordinal d + 1.
Proof.
  intros Hvalid. destruct (month_facts d Hvalid) as (_ & _ & _ & Hnext & _ & Hlast).
  destruct Hvalid as (Hy & Hm & Hd). unfold MINYEAR in *.
  unfold next_day, toordinal, _ymd2ord.
  destruct (Z.ltb_spec (day d) (_days_in_month (year d) (month d))); simpl; [lia |].
  destruct (Z.ltb_spec (month d) 12); simpl.
  - rewrite Hnext by lia. lia.
  - assert (Hm12 : month d = 12) by lia. specialize (Hlast Hm12).
    rewrite Hm12 in *. rewrite days_before_year_succ by lia.
    change (_days_before_month (year d + 1) 1) with 0. lia.
Qed.

Lemma toordinal_positive (d : date) : valid d -> 1 <= toordinal d.
Proof.
  intros Hvalid. destruct (month_facts d Hvalid) as (Hn & _).
  destruct Hvalid as (Hy & _). unfold MINYEAR in *.
  destruct (year_shape (year d) ltac:(lia)) as (A & c & f & e & _ & ? & ? & ? & ? & Hdby & _).
  unfold toordinal, _ymd2ord. lia.
Qed.

Lemma toordinal_last_year (d : date) :
  valid d -> year d = 9999 -> month d = 12 -> day d = 31 -> toordinal d = _MAXORDINAL.
Proof. intros _. destruct d as [y m dd]. simpl. by intros -> -> ->. Qed.

Lemma days_in_month_bounds (y m : Z) :
  1 <= m <= 12 -> 28 <= _days_in_month y m <= 31.
Proof.
  intros Hm. unfold _days_in_month, item, _DAYS_IN_MONTH.
  destruct ((m =? 2) && _is_leap y); [lia |].
  assert (Hcases : m = 1 \/ m = 2 \/ m = 3 \/ m = 4 \/ m = 5 \/ m = 6 \/ m = 7 \/ m = 8
                   \/ m = 9 \/ m = 10 \/ m = 11 \/ m = 12) by lia.
  destruct Hcases as [-> | [-> | [-> | [-> | [-> | [-> | [-> | [-> | [-> | [-> | [-> | ->]]]]]]]]]]];
    simpl; lia.
Qed.

Lemma valid_next_day (d : date) :
  valid d -> toordinal d < _MAXORDINAL -> valid (next_day d).
Proof.
  intros Hvalid Hbelow.
  pose proof (toordinal_last_year d Hvalid) as Hend.
  destruct Hvalid as (Hy & Hm & Hd). unfold MINYEAR, MAXYEAR in *.
  pose proof (days_in_month_bounds (year d) (month d) Hm) as Hdim.
  unfold next_day.
  destruct (Z.ltb_spec (day d) (_days_in_month (year d) (month d))).
  { unfold valid, MINYEAR, MAXYEAR. simpl. lia. }
  destruct (Z.ltb_spec (month d) 12).
  - unfold valid, MINYEAR, MAXYEAR. simpl.
    pose proof (days_in_month_bounds (year d) (month d + 1)). lia.
  - unfold valid, MINYEAR, MAXYEAR. simpl.
    assert (Hm12 : month d = 12) by lia.
    assert (Hd31 : day d = 31).
    { rewrite Hm12 in *. change (_days_in_month (year d) 12) with 31 in *. lia. }
    assert (year d <> 9999).
    { intros Hy9. specialize (Hend Hy9 Hm12 Hd31). lia. }
    change (_days_in_month (year d + 1) 1) with 31. lia.
Qed.

(** [k] days later. *)
Lemma days_later (d : date) (k : nat) :
  valid d -> toordinal d + Z.of_nat k <= _MAXORDINAL ->
  valid (Nat.iter k next_day d) /\
  toordinal (Nat.iter k next_day d) = toordinal d + Z.of_nat k /\
  year d <= year (Nat.iter k next_day d).
Proof.
  intros Hvalid. induction k as [| k IH]; intros Hk.
  - simpl. split_and!; [done | lia | lia].
  - destruct IH as (Hv & Ho & Hyear); [lia |].
    simpl. split_and!.
    + apply valid_next_day; [done | lia].
    + rewrite toordinal_next_day by done. lia.
    + etrans; [exact Hyear |]. unfold next_day.
      repeat case_match; simpl; lia.
Qed.

Lemma add_days (d : date) (n : Z) :
  valid d -> 0 <= n -> toordinal d + n <= _MAXORDINAL ->
  timedelta n = Some n /\
  add d n = Some (Nat.iter (Z.to_nat n) next_day d).
Proof.
  intros Hvalid Hn Hmax.
  pose proof (toordinal_positive d Hvalid) as Hpos.
  destruct (days_later d (Z.to_nat n) Hvalid) as (Hv & Ho & _); [lia |].
  split.
  - unfold timedelta. unfold _MAXORDINAL in *.
    destruct (Z.leb_spec (Z.abs n) 999999999); [done | lia].
  - unfold add.
    replace ((0 <? toordinal d + n) && (toordinal d + n <=? _MAXORDINAL)) with true.
    + f_equal. rewrite <- (fromordinal_toordinal _ Hv). f_equal. lia.
    + symmetry. apply andb_true_iff. rewrite Z.ltb_lt, Z.leb_le. lia.
Qed.

Lemma four_digit_years_checked :
  forallb (fun y : Z => Nat.eqb (String.length (pretty y)) 4) (seqZ 1000 9000) = true.
Proof. vm_compute. reflexivity. Qed.

Lemma four_digit_year (y : Z) : 1000 <= y <= 9999 -> zfill 4 (pretty y) = pretty y.
Proof.
  intros Hy. pose proof four_digit_years_checked as Hall.
  rewrite forallb_forall in Hall. specialize (Hall y).
  rewrite <- list_elem_of_In, elem_of_seqZ in Hall. specialize (Hall ltac:(lia)).
  apply Nat.eqb_eq in Hall. unfold zfill. rewrite Hall. done.
Qed.

Lemma strftime_isoformat (d : date) :
  1000 <= year d <= 9999 -> strftime_Y_m_d d = isoformat d.
Proof. intros Hy. unfold strftime_Y_m_d, isoformat. by rewrite four_digit_year. Qed.

End Calendar.

(** ** The page object *)

Section PageObject.
Import playwright py home_page.
Context {Page : Type} {browser : Playwright Page}.

(** Unfolding the monad down to functions on worlds. *)
Ltac po_unfold :=
  unfold mbind, mret, PO_bind, PO_ret, bind, ret, raise, try_except, print, ui, date_today in *.

Lemma AIRPORT_MAPPINGS_lookup (code : string) :
  airports.AIRPORT_MAPPINGS !! code =
    if decide (code = "RTM") then Some "Rome, Italy"
    else if decide (code = "MAD") then Some "Madrid, Spain"
    else None.
Proof.
  unfold airports.AIRPORT_MAPPINGS.
  destruct (decide (code = "RTM")) as [-> | Hrtm]; [by rewrite lookup_insert_eq |].
  rewrite lookup_insert_ne by done.
  destruct (decide (code = "MAD")) as [-> | Hmad]; [by rewrite lookup_singleton_eq |].
  by rewrite lookup_singleton_ne.
Qed.

(** An unmapped code stops either setter before the first browser call. *)
Lemma set_departure_airport_unmapped (self : HomePage) (code : string) (w : World Page) :
  airports.AIRPORT_MAPPINGS !! code = None →
  set_departure_airport self code w = (Raise (airport_not_found code), w).
Proof. intros Hcode. unfold set_departure_airport. by rewrite Hcode. Qed.

Lemma set_arrival_airport_unmapped (self : HomePage) (code : string) (w : World Page) :
  airports.AIRPORT_MAPPINGS !! code = None →
  set_arrival_airport self code w = (Raise (airport_not_found code), w).
Proof. intros Hcode. unfold set_arrival_airport. by rewrite Hcode. Qed.

(** A browser call never raises a [ValueError]. *)
Lemma ui_no_ValueError (c : Call) (w : World Page) (message : string) :
  (ui c w).1 ≠ Raise (ValueError message).
Proof. unfold ui. destruct (perform c (page w)) as [[b | m] p']; simpl; congruence. Qed.

(** After a mapped code the only exceptions are the browser's. *)
Lemma set_departure_airport_mapped (self : HomePage) (code name : string)
    (w : World Page) (message : string) :
  airports.AIRPORT_MAPPINGS !! code = Some name →
  (set_departure_airport self code w).1 ≠ Raise (ValueError message).
Proof.
  intros Hcode. unfold set_departure_airport. rewrite Hcode. po_unfold.
  repeat match goal with
         | |- context [perform ?c ?p] => destruct (perform c p) as [[[] | ?] ?]; simpl
         end; congruence.
Qed.

Lemma set_arrival_airport_mapped (self : HomePage) (code name : string)
    (w : World Page) (message : string) :
  airports.AIRPORT_MAPPINGS !! code = Some name →
  (set_arrival_airport self code w).1 ≠ Raise (ValueError message).
Proof.
  intros Hcode. unfold set_arrival_airport. rewrite Hcode. po_unfold.
  repeat match goal with
         | |- context [perform ?c ?p] => destruct (perform c p) as [[[] | ?] ?]; simpl
         end; congruence.
Qed.

(** C4. For a code that is not a key of the airport mapping, both setters
    raise the validation error and give the world back as it was: no
    browser call is made and the page is in the same state.  For a
    mapped code neither setter raises a validation error. *)
Theorem airport_validation_precedes_ui (self : HomePage) (code : string) (w : World Page) :
  (airports.AIRPORT_MAPPINGS !! code = None →
     set_departure_airport self code w = (Raise (airport_not_found code), w) ∧
     set_arrival_airport self code w = (Raise (airport_not_found code), w) ∧
     ui_log (set_departure_airport self code w).2 = ui_log w ∧
     ui_log (set_arrival_airport self code w).2 = ui_log w ∧
     page (set_departure_airport self code w).2 = page w ∧
     page (set_arrival_airport self code w).2 = page w) ∧
  (is_Some (airports.AIRPORT_MAPPINGS !! code) →
     ∀ message,
       (set_departure_airport self code w).1 ≠ Raise (ValueError message) ∧
       (set_arrival_airport self code w).1 ≠ Raise (ValueError message)).
Proof.
  split.
  - intros Hcode.
    rewrite set_departure_airport_unmapped, set_arrival_airport_unmapped by done.
    done.
  - intros [name Hname] message.
    eauto using set_departure_airport_mapped, set_arrival_airport_mapped.
Qed.

Lemma ui_returned (c : Call) (w : World Page) (b : bool) (p : Page) :
  perform c (page w) = (returned b, p) →
  ui c w = (Return b, after_call w c (returned b) p).
Proof. intros Hc. unfold ui. by rewrite Hc. Qed.

Lemma ui_raised (c : Call) (w : World Page) (m : string) (p : Page) :
  perform c (page w) = (raised m, p) →
  ui c w = (Raise (PlaywrightError m), after_call w c (raised m) p).
Proof. intros Hc. unfold ui. by rewrite Hc. Qed.

(** C10. The airport mapping has exactly the keys RTM and MAD, with the
    display names Rome, Italy and Madrid, Spain; each setter raises the
    validation error exactly for the codes other than these two. *)
Theorem accepted_airport_codes (self : HomePage) (code : string) (w : World Page) :
  airports.AIRPORT_MAPPINGS !! "RTM" = Some "Rome, Italy" ∧
  airports.AIRPORT_MAPPINGS !! "MAD" = Some "Madrid, Spain" ∧
  dom airports.AIRPORT_MAPPINGS = ({[ "RTM"; "MAD" ]} : gset string) ∧
  (code ∉ ["RTM"; "MAD"] ↔
     ∃ message, (set_departure_airport self code w).1 = Raise (ValueError message)) ∧
  (code ∉ ["RTM"; "MAD"] ↔
     ∃ message, (set_arrival_airport self code w).1 = Raise (ValueError message)).
Proof.
  split; [done | split; [done | split]].
  { unfold airports.AIRPORT_MAPPINGS. by rewrite dom_insert_L, dom_singleton_L. }
  assert (Hkeys : code ∉ ["RTM"; "MAD"] ↔ airports.AIRPORT_MAPPINGS !! code = None).
  { rewrite AIRPORT_MAPPINGS_lookup, !not_elem_of_cons.
    repeat case_decide; (split; [by intros (? & ? & ?) | intros ?]); try done.
    by eauto using not_elem_of_nil. }
  rewrite Hkeys. split; split.
  - intros Hcode. rewrite set_departure_airport_unmapped by done. by eexists.
  - intros [message Hraise].
    destruct (airports.AIRPORT_MAPPINGS !! code) as [name |] eqn:Hcode; [| done].
    by destruct (set_departure_airport_mapped self code name w message).
  - intros Hcode. rewrite set_arrival_airport_unmapped by done. by eexists.
  - intros [message Hraise].
    destruct (airports.AIRPORT_MAPPINGS !! code) as [name |] eqn:Hcode; [| done].
    by destruct (set_arrival_airport_mapped self code name w message).
Qed.

(** C8. [uncheck_accommodation_option] first asks whether the checkbox
    is checked.  If the answer is yes it clicks the first checkbox icon,
    and that is its only click; if the answer is no it returns at once:
    the query is the only browser call, whatever ran before.  So the
    icon is clicked if and only if the checkbox was reported checked. *)
Theorem uncheck_clicks_iff_checked (self : HomePage) (w : World Page)
    (answer : Response) (p : Page) :
  perform (is_checked accommodation_checkbox) (page w) = (answer, p) →
  let after := (uncheck_accommodation_option self w).2 in
  (answer = returned true →
     calls after =
       calls w ++ [is_checked accommodation_checkbox; click checkbox_icon None]) ∧
  (answer = returned false →
     uncheck_accommodation_option self w =
       (Return (), after_call w (is_checked accommodation_checkbox) (returned false) p) ∧
     calls after = calls w ++ [is_checked accommodation_checkbox]) ∧
  (∃ made, calls after = calls w ++ made ∧
     (click checkbox_icon None ∈ made ↔ answer = returned true)).
Proof.
  intros Hask after. unfold after, uncheck_accommodation_option, calls. po_unfold.
  rewrite Hask. destruct answer as [[] | m]; simpl.
  - destruct (perform (click checkbox_icon None) p) as [[b | m] p'] eqn:Hclick; simpl;
      rewrite <- app_assoc, fmap_app; simpl;
      (split; [done | split; [done |]]); eexists; (split; [done |]);
      rewrite !elem_of_cons; split; auto.
  - rewrite fmap_app. simpl.
    split; [done | split; [done |]]. eexists; split; [done |].
    rewrite elem_of_cons, elem_of_nil. split; [intros [? | []] |]; done.
  - rewrite fmap_app. simpl.
    split; [done | split; [done |]]. eexists; split; [done |].
    rewrite elem_of_cons, elem_of_nil. split; [intros [? | []] |]; done.
Qed.

(** *** Handler-free code lets browser exceptions through *)

Import policy.

Lemma propagates_ret {A : Type} (a : A) : propagates (mret a : PO Page A).
Proof. intros w. exists []. simpl. by rewrite app_nil_r. Qed.

Lemma propagates_raise {A : Type} (e : exn) :
  (∀ message, e ≠ PlaywrightError message) → propagates (raise e : PO Page A).
Proof.
  intros He w. exists []. simpl. rewrite app_nil_r. split; [done |].
  destruct e; try done. by destruct (He message).
Qed.

Lemma propagates_date_today : propagates (date_today : PO Page datetime.date).
Proof. intros w. exists []. simpl. by rewrite app_nil_r. Qed.

Lemma propagates_ui (c : Call) : propagates (ui c).
Proof.
  intros w. unfold ui. destruct (perform c (page w)) as [[b | m] p]; simpl.
  - exists [(c, returned b)]. split; [done |].
    apply Forall_singleton. by exists b.
  - exists [(c, raised m)]. split; [done |]. by exists [], c.
Qed.

Lemma propagates_bind {A B : Type} (m : PO Page A) (k : A → PO Page B) :
  propagates m → (∀ a, propagates (k a)) → propagates (m ≫= k).
Proof.
  intros Hm Hk w. unfold mbind, PO_bind, bind.
  destruct (Hm w) as (entries1 & Hlog1 & Hres1).
  destruct (m w) as [[a | e] w1]; simpl in *.
  - destruct (Hk a w1) as (entries2 & Hlog2 & Hres2).
    exists (entries1 ++ entries2). rewrite Hlog2, Hlog1, app_assoc. split; [done |].
    destruct (k a w1) as [[b | e] w2]; simpl in *.
    + by apply Forall_app.
    + destruct e as [| | message]; try by apply Forall_app.
      destruct Hres2 as (made & c & -> & Hmade).
      exists (entries1 ++ made), c. rewrite app_assoc. split; [done |].
      by apply Forall_app.
  - by exists entries1.
Qed.

(** Bring a handler-free operation to its calls, one [bind] at a time. *)
Ltac propagate :=
  repeat first
    [ apply propagates_bind; [| intros ?]
    | apply propagates_ui
    | apply propagates_ret
    | apply propagates_date_today
    | apply propagates_raise; intros ?; discriminate
    | match goal with
      | |- propagates (if ?b then _ else _) => destruct b
      | |- propagates (match ?o with Some _ => _ | None => _ end) => destruct o
      | |- propagates (let _ := _ in _) => cbv zeta
      end ].


Lemma set_departure_airport_propagates (self : HomePage) (code : string) :
  propagates (set_departure_airport self code).
Proof. unfold set_departure_airport. propagate. Qed.

Lemma set_arrival_airport_propagates (self : HomePage) (code : string) :
  propagates (set_arrival_airport self code).
Proof. unfold set_arrival_airport. propagate. Qed.




(** *** Consent dismissal swallows them *)

(** Whatever the browser does, [accept_privacy_consent] returns a
    boolean; when one of its calls raised, the boolean is [False] and the
    message was printed. *)
Lemma accept_privacy_consent_catches (config : config.Config) (self : HomePage)
    (w : World Page) :
  ∃ b entries,
    (accept_privacy_consent config self w).1 = Return b ∧
    ui_log (accept_privacy_consent config self w).2 = ui_log w ++ entries ∧
    (∀ c message, (c, raised message) ∈ entries →
       b = false ∧
       stdout (accept_privacy_consent config self w).2 =
         stdout w ++ [consent_error_line message]) ∧
    (b = true →
       entries =
         [ (is_visible privacy_popup_accept_button (Some 5000), returned true);
           (click privacy_popup_accept_button (Some (config.DEFAULT_TIMEOUT config)),
            returned true) ] ∨
       entries =
         [ (is_visible privacy_popup_accept_button (Some 5000), returned true);
           (click privacy_popup_accept_button (Some (config.DEFAULT_TIMEOUT config)),
            returned false) ]).
Proof.
  unfold accept_privacy_consent. po_unfold.
  destruct (perform (is_visible privacy_popup_accept_button (Some 5000)) (page w))
    as [[[] | m] p]; simpl.
  - destruct (perform (click privacy_popup_accept_button
                         (Some (config.DEFAULT_TIMEOUT config))) p)
      as [[[] | m] p']; simpl; rewrite <- app_assoc; simpl.
    + exists true. eexists. split; [done | split; [done | split]].
      * intros c message Hin. apply list_elem_of_In in Hin.
        destruct Hin as [? | [? | []]]; discriminate.
      * by left.
    + exists true. eexists. split; [done | split; [done | split]].
      * intros c message Hin. apply list_elem_of_In in Hin.
        destruct Hin as [? | [? | []]]; discriminate.
      * by right.
    + exists false. eexists. split; [done | split; [done | split]]; [| done].
      intros c message Hin. apply list_elem_of_In in Hin.
      destruct Hin as [? | [Heq | []]]; [discriminate |].
      by injection Heq as <- <-.
  - exists false. eexists. split; [done | split; [done | split]]; [| done].
    intros c message Hin. apply list_elem_of_In in Hin.
    destruct Hin as [? | []]; discriminate.
  - exists false. eexists. split; [done | split; [done | split]]; [| done].
    intros c message Hin. apply list_elem_of_In in Hin.
    destruct Hin as [Heq | []]. by injection Heq as <- <-.
Qed.



(** *** Date picking *)

(** The three clicks of [set_departure_date] for a target date. *)
Lemma set_departure_date_calls (self : HomePage) (total_days : Z) (w : World Page)
    (target : datetime.date) :
  today_plus total_days w = (Return target, w) →
  ∃ made,
    calls (set_departure_date self total_days w).2 = calls w ++ made ∧
    made `prefix_of`
      [ click departure_date_input None;
        click (date_cell (datetime.strftime_Y_m_d target)) None;
        click set_dates_button None ] ∧
    (∀ b p, perform (click departure_date_input None) (page w) = (returned b, p) →
       click (date_cell (datetime.strftime_Y_m_d target)) None ∈ made) ∧
    ((set_departure_date self total_days w).1 = Return () →
       made = [ click departure_date_input None;
                click (date_cell (datetime.strftime_Y_m_d target)) None;
                click set_dates_button None ]).
Proof.
  intros Hplus. unfold set_departure_date, calls.
  unfold mbind, mret, PO_bind, PO_ret, bind, ret, ui.
  destruct (perform (click departure_date_input None) (page w)) as [[b1 | m1] p1] eqn:H1;
    cbn [fst snd ui_log page].
  2:{ exists [click departure_date_input None]. rewrite fmap_app.
      split_and!; [done | by eexists | intros; discriminate | intros; discriminate]. }
  set (w1 := {| page := p1; today := today w;
                ui_log := ui_log w ++ [(click departure_date_input None, returned b1)];
                stdout := stdout w |}).
  assert (Hplus1 : today_plus total_days w1 = (Return target, w1)).
  { unfold today_plus, mbind, mret, PO_bind, PO_ret, bind, ret, raise, date_today in *.
    simpl in *. destruct (datetime.timedelta total_days); [| discriminate].
    destruct (datetime.add (today w) z); [| discriminate]. congruence. }
  rewrite Hplus1. cbn [today page ui_log w1].
  destruct (perform (click (date_cell (datetime.strftime_Y_m_d target)) None) p1)
    as [[b2 | m2] p2]; cbn [fst snd ui_log page].
  2:{ eexists [_; _]. rewrite <- app_assoc, fmap_app.
      split_and!; [done | by eexists | | intros; discriminate].
      intros. rewrite !elem_of_cons. auto. }
  destruct (perform (click set_dates_button None) p2) as [[b3 | m3] p3];
    cbn [fst snd ui_log page];
    (eexists [_; _; _]; rewrite <- !app_assoc, fmap_app;
     split_and!; [done | done | intros; rewrite !elem_of_cons; auto | done]).
Qed.

(** C5, as the code has it.  When today plus [total_days] days is a date
    that [datetime.date] can hold (not after 9999-12-31), the target is
    the date reached from today by that many steps to the next calendar
    day; the calls made are, in this order, the click on the date input,
    the click on the calendar cell whose value is the target formatted
    by [strftime("%Y-%m-%d")] (the ISO form YYYY-MM-DD from year 1000
    on), and the click on the done button, stopping at the first that
    raises; the cell is clicked as soon as the first click came back. *)
Theorem departure_date_is_today_plus_offset (self : HomePage) (total_days : Z)
    (w : World Page) :
  datetime.valid (today w) → 0 <= total_days →
  datetime.toordinal (today w) + total_days <= datetime._MAXORDINAL →
  let target := Nat.iter (Z.to_nat total_days) datetime.next_day (today w) in
  datetime.valid target ∧
  datetime.toordinal target = datetime.toordinal (today w) + total_days ∧
  today_plus total_days w = (Return target, w) ∧
  (1000 <= datetime.year (today w) →
     datetime.strftime_Y_m_d target = datetime.isoformat target) ∧
  (∃ made,
     calls (set_departure_date self total_days w).2 = calls w ++ made ∧
     made `prefix_of`
       [ click departure_date_input None;
         click (date_cell (datetime.strftime_Y_m_d target)) None;
         click set_dates_button None ] ∧
     (∀ b p, perform (click departure_date_input None) (page w) = (returned b, p) →
        click (date_cell (datetime.strftime_Y_m_d target)) None ∈ made) ∧
     ((set_departure_date self total_days w).1 = Return () →
        made = [ click departure_date_input None;
                 click (date_cell (datetime.strftime_Y_m_d target)) None;
                 click set_dates_button None ])).
Proof.
  intros Hvalid Hdays Hmax target.
  destruct (days_later (today w) (Z.to_nat total_days) Hvalid) as (Hv & Ho & Hyear); [lia |].
  destruct (add_days (today w) total_days Hvalid Hdays Hmax) as (Hdelta & Hadd).
  assert (Hplus : today_plus total_days w = (Return target, w)).
  { unfold today_plus, mbind, mret, PO_bind, PO_ret, bind, ret, date_today.
    by rewrite Hdelta, Hadd. }
  split_and!.
  - done.
  - fold target in Ho. lia.
  - done.
  - intros Hy. apply strftime_isoformat. fold target in Hyear, Hv.
    destruct Hv as ([_ Hy9] & _). unfold datetime.MAXYEAR in Hy9. lia.
  - by apply set_departure_date_calls.
Qed.

End PageObject.

(** *** The page object on concrete pages *)

Section OnConcretePages.
Import playwright py home_page policy browsers.



(** C4 on the cooperative page: ZZZ is refused with the world untouched,
    RTM passes validation. *)
Lemma airport_validation_precedes_ui_witness :
  @set_departure_airport _ cooperative (__init__ a_config) "ZZZ" (world () a_day)
    = (Raise (ValueError "Airport code 'ZZZ' not found in mappings"), world () a_day) ∧
  (@set_departure_airport _ cooperative (__init__ a_config) "RTM" (world () a_day)).1
    ≠ Raise (ValueError "Airport code 'RTM' not found in mappings").
Proof.
  split.
  - apply (@airport_validation_precedes_ui _ cooperative (__init__ a_config) "ZZZ"
             (world () a_day)).
    reflexivity.
  - apply (@airport_validation_precedes_ui _ cooperative (__init__ a_config) "RTM"
             (world () a_day)).
    exists "Rome, Italy". reflexivity.
Defined.

(** C8 on the checkbox page: a checked box is clicked once, and the second
    run in a row finds it unchecked and only asks. *)
Lemma uncheck_clicks_iff_checked_witness :
  let first_run := @uncheck_accommodation_option _ checkbox (__init__ a_config)
                     (world true a_day) in
  let second_run := @uncheck_accommodation_option _ checkbox (__init__ a_config)
                      first_run.2 in
  calls first_run.2 = [is_checked accommodation_checkbox; click checkbox_icon None] ∧
  calls second_run.2 = calls first_run.2 ++ [is_checked accommodation_checkbox] ∧
  page second_run.2 = false.
Proof.
  intros first_run second_run. split; [| split].
  - apply (@uncheck_clicks_iff_checked _ checkbox (__init__ a_config)
             (world true a_day) (returned true) true); reflexivity.
  - apply (@uncheck_clicks_iff_checked _ checkbox (__init__ a_config)
             first_run.2 (returned false) false); reflexivity.
  - reflexivity.
Defined.

(** Date picking as the specification words it fails on the code: four
    million days from 2024-02-25 lie past 9999-12-31, the addition
    raises [OverflowError] right after the click on the date input, and
    no calendar cell is clicked although the page plays along. *)
Lemma every_offset_selects_its_day_counterexample :
  @set_departure_date _ cooperative (__init__ a_config) 4000000 (world () a_day) =
    (Raise (OverflowError "date value out of range"),
     after_call (world () a_day) (click departure_date_input None) (returned true) ()) ∧
  ¬ every_offset_selects_its_day.
Proof.
  split; [reflexivity |].
  intros Hclaim.
  specialize (Hclaim unit cooperative (__init__ a_config) 4000000 (world () a_day)).
  assert (Hrun : calls (@set_departure_date _ cooperative (__init__ a_config) 4000000
                          (world () a_day)).2 = [click departure_date_input None])
    by reflexivity.
  rewrite Hrun in Hclaim.
  assert (Hcell : click (date_cell (datetime.strftime_Y_m_d
                    (Nat.iter (Z.to_nat 4000000) datetime.next_day (today (world () a_day)))))
                    None ∈ [click departure_date_input None]).
  { apply Hclaim.
    - intros c []. by exists true, ().
    - unfold datetime.valid. simpl. vm_compute. intuition discriminate.
    - lia. }
  apply list_elem_of_singleton in Hcell. discriminate Hcell.
Qed.

(** The amended statement at work: seven days after 2024-02-25 on the
    cooperative page. *)
Lemma departure_date_is_today_plus_offset_witness :
  Nat.iter 7 datetime.next_day a_day =
    {| datetime.year := 2024; datetime.month := 3; datetime.day := 3 |} ∧
  calls (@set_departure_date _ cooperative (__init__ a_config) 7 (world () a_day)).2 =
    [ click departure_date_input None;
      click (locator "div[data-test='CalendarDay'][data-value='2024-03-03']") None;
      click set_dates_button None ].
Proof.
  destruct (@departure_date_is_today_plus_offset _ cooperative (__init__ a_config) 7
              (world () a_day))
    as (_ & _ & _ & _ & made & Hcalls & _ & _ & Hall).
  - unfold datetime.valid. vm_compute. intuition discriminate.
  - lia.
  - vm_compute. discriminate.
  - split; [reflexivity |].
    rewrite Hcalls, Hall; reflexivity.
Defined.

End OnConcretePages.
(** ** The step definitions *)

Section Steps.
Import playwright py home_page.
Context {Page : Type} {browser : Playwright Page}.

(** C7. The departure-time step hands [value * 7] to
    [set_departure_date] when the unit is week or weeks, and [value]
    itself when it is day or days; for any other unit it raises a
    [ValueError] and leaves the world as it was, so the date-setting
    operation, whose first action is a browser call, was not invoked. *)
Theorem set_departure_time_units (config : config.Config) (value : Z) (unit : string)
    (w : World Page) :
  (unit = "week" ∨ unit = "weeks" →
     steps.set_departure_time config value unit w =
       set_departure_date (__init__ config) (value * 7) w) ∧
  (unit = "day" ∨ unit = "days" →
     steps.set_departure_time config value unit w =
       set_departure_date (__init__ config) value w) ∧
  (unit ∉ ["week"; "weeks"; "day"; "days"] →
     steps.set_departure_time config value unit w =
       (Raise (steps.unsupported_time_unit unit), w) ∧
     ui_log (steps.set_departure_time config value unit w).2 = ui_log w).
Proof.
  unfold steps.set_departure_time, mbind, mret, PO_bind, PO_ret, bind, ret, raise.
  split; [| split].
  - intros Hunit. by rewrite decide_True.
  - intros Hunit. rewrite decide_False, decide_True; [done | done |].
    destruct Hunit as [-> | ->]; intros [? | ?]; discriminate.
  - rewrite !not_elem_of_cons. intros (? & ? & ? & ? & _).
    rewrite !decide_False; [done | tauto | tauto].
Qed.

End Steps.

(** C7 on the cooperative page: two weeks are fourteen days, and a
    fortnight is refused without a browser call. *)
Lemma set_departure_time_units_witness :
  @steps.set_departure_time _ browsers.cooperative browsers.a_config 2 "weeks"
      (browsers.world () browsers.a_day) =
    @home_page.set_departure_date _ browsers.cooperative
      (home_page.__init__ browsers.a_config) 14 (browsers.world () browsers.a_day) ∧
  @steps.set_departure_time _ browsers.cooperative browsers.a_config 3 "days"
      (browsers.world () browsers.a_day) =
    @home_page.set_departure_date _ browsers.cooperative
      (home_page.__init__ browsers.a_config) 3 (browsers.world () browsers.a_day) ∧
  @steps.set_departure_time _ browsers.cooperative browsers.a_config 1 "fortnight"
      (browsers.world () browsers.a_day) =
    (py.Raise (py.ValueError
       "Unsupported time unit: fortnight. Please use 'week(s)' or 'day(s)'."),
     browsers.world () browsers.a_day).
Proof.
  split; [| split].
  - apply (@set_departure_time_units _ browsers.cooperative browsers.a_config 2 "weeks").
    by right.
  - apply (@set_departure_time_units _ browsers.cooperative browsers.a_config 3 "days").
    by right.
  - apply (@set_departure_time_units _ browsers.cooperative browsers.a_config 1 "fortnight").
    rewrite list_elem_of_In. simpl. intuition discriminate.
Defined.

(** ** The harness *)

Section Harness.
Import conftest.
Context {Page : Type}.
Variable screenshot : Page → string + string.

(** The failure hook reads the reference and never writes it. *)
Lemma makereport_keeps_reference (report : TestReport) (g : Globals Page) :
  _test_failed_page (pytest_runtest_makereport screenshot report g) = _test_failed_page g.
Proof.
  unfold pytest_runtest_makereport.
  destruct (when report), (outcome report); try done.
  destruct (_test_failed_page g) as [p |] eqn:Hp; simpl; [| done].
  by destruct (screenshot p).
Qed.

Lemma run_test_clears (t : TestItem Page) (g : Globals Page) :
  _test_failed_page (run_test screenshot t g) = None.
Proof. unfold run_test, teardown_phase. by rewrite makereport_keeps_reference. Qed.

Lemma run_session_app (tests1 tests2 : list (TestItem Page)) (g : Globals Page) :
  run_session screenshot (tests1 ++ tests2) g =
    run_session screenshot tests2 (run_session screenshot tests1 g).
Proof. unfold run_session. by rewrite fold_left_app. Qed.

(** Between tests the reference is empty. *)
Lemma run_session_clears (tests : list (TestItem Page)) (g : Globals Page) :
  _test_failed_page g = None →
  _test_failed_page (run_session screenshot tests g) = None.
Proof.
  revert g. induction tests as [| t tests IH]; intros g Hg; [done |].
  simpl. apply IH, run_test_clears.
Qed.

(** C9. In every test, whatever state the globals were in and however
    the body ends, the reference holds the test's page once the fixture
    has run up to its [yield], still holds it when the failure hook
    looks at the call report, and is empty once the fixture has been
    resumed at teardown.  Hence in a session started from the module's
    initial state the reference is empty before and after every test. *)
Theorem active_page_reference_lifecycle (t : TestItem Page) (g : Globals Page)
    (tests_before tests_after : list (TestItem Page)) :
  let s := setup_phase screenshot t g in
  yielded s = item_page t ∧
  _test_failed_page (at_yield s) = Some (item_page t) ∧
  _test_failed_page (call_phase screenshot t s) = Some (item_page t) ∧
  _test_failed_page (teardown_phase screenshot s (call_phase screenshot t s)) = None ∧
  _test_failed_page (run_test screenshot t g) = None ∧
  _test_failed_page (run_session screenshot tests_before initial) = None ∧
  _test_failed_page
    (run_session screenshot (tests_before ++ t :: tests_after) initial) = None.
Proof.
  intros s. split_and!.
  - done.
  - unfold s, setup_phase. cbn [at_yield]. by rewrite makereport_keeps_reference.
  - unfold call_phase. rewrite makereport_keeps_reference.
    unfold s, setup_phase. cbn [at_yield]. by rewrite makereport_keeps_reference.
  - unfold teardown_phase. by rewrite makereport_keeps_reference.
  - apply run_test_clears.
  - by apply run_session_clears.
  - by apply run_session_clears.
Qed.

End Harness.

(** A session of two tests, the first failing: the hook finds the first
    test's page for its screenshot, nothing is captured for the second,
    and the reference is empty at the end. *)
Example session_with_a_failure :
  conftest.run_session (λ p : nat, inr ("png of page " +:+ pretty p))
    [ {| conftest.item_page := 1%nat; conftest.item_body := λ _, conftest.failed |};
      {| conftest.item_page := 2%nat; conftest.item_body := λ _, conftest.passed |} ]
    conftest.initial
  = {| conftest._test_failed_page := None;
       conftest.hook_events := [ conftest.screenshot_attached 1%nat "png of page 1" ] |}.
Proof. vm_compute. reflexivity. Qed.

(** Case and surrounding whitespace do not matter to the boolean parser:
    ASCII blanks, an ideographic space (U+3000) after the text, a
    no-break space (U+00A0) before it. *)
Example get_env_bool_any_case :
  config._get_env_bool (database := unicode.sample)
    {[ "HEADLESS" := "  TrUe " ]} "HEADLESS" false = (true, []) ∧
  config._get_env_bool (database := unicode.sample)
    {[ "HEADLESS" := " No" +:+ unicode.of_bytes [227; 128; 128]%N ]} "HEADLESS" true
    = (false, []) ∧
  config._get_env_bool (database := unicode.sample)
    {[ "HEADLESS" := unicode.of_bytes [194; 160]%N +:+ "ON" ]} "HEADLESS" false
    = (true, []) ∧
  config._get_env_bool (database := unicode.sample)
    {[ "HEADLESS" := "   " ]} "HEADLESS" true =
    (true, [config.RuntimeWarning
              "Invalid boolean value for HEADLESS: '   '. Using default True"]) ∧
  config._get_env_bool (database := unicode.sample)
    {[ "HEADLESS" := unicode.of_bytes [194; 160]%N +:+ "tru" ]} "HEADLESS" false =
    (false, [config.RuntimeWarning
               "Invalid boolean value for HEADLESS: '\xa0tru'. Using default False"]).
Proof. vm_compute. repeat split; reflexivity. Qed.

(** What [int] reads and what it refuses: signs, underscores, blanks,
    the fullwidth digits of 12 (U+FF11 U+FF12), a no-break space after
    the number; and no number after a file separator (U+001C), which
    [strip] would remove but [int] does not skip. *)
Example int_readings :
  pyint.int (database := unicode.sample) 4300 " -1_500 " = Some (-1500) ∧
  pyint.int (database := unicode.sample) 4300 "+007" = Some 7 ∧
  pyint.int (database := unicode.sample) 4300
    (unicode.of_bytes [239; 188; 145; 239; 188; 146]%N) = Some 12 ∧
  pyint.int (database := unicode.sample) 4300
    ("12" +:+ unicode.of_bytes [194; 160]%N) = Some 12 ∧
  pyint.int (database := unicode.sample) 4300 (unicode.of_bytes [28; 53]%N) = None ∧
  pyint.int (database := unicode.sample) 4300 "1__0" = None ∧
  pyint.int (database := unicode.sample) 4300 "15s" = None ∧
  pyint.int (database := unicode.sample) 4300 "" = None ∧
  pyint.int (database := unicode.sample) 4300 "- 5" = None ∧
  pyint.int (database := unicode.sample) 640 (pystr.mul "7" 640) ≠ None ∧
  pyint.int (database := unicode.sample) 640 (pystr.mul "7" 641) = None ∧
  pyint.int (database := unicode.sample) 0 (pystr.mul "7" 641) ≠ None.
Proof. vm_compute. repeat split; (reflexivity || discriminate). Qed.

(* ===================================================================== *)
(** * Further properties                                                  *)
(* ===================================================================== *)

(** ** Configuration: what the boolean parser ignores *)

Section BooleanParserInsensitivity.
Import config.
Context {database : unicode.UnicodeData}.

(** The value read depends on the variable's text only. *)
Lemma get_env_bool_of_text (env : environ) (name raw : string) (default : bool) :
  getenv env name = Some raw →
  _get_env_bool env name default = _get_env_bool {[ name := raw ]} name default.
Proof.
  intros Hraw. unfold _get_env_bool, getenv in *.
  by rewrite Hraw, lookup_singleton_eq.
Qed.


(** X2. Letter case never changes the value read: two texts with the
    same lower-case form give the same boolean. *)
Theorem get_env_bool_ignores_case (env : environ) (name raw1 raw2 : string)
    (default : bool) :
  pystr.lower raw1 = pystr.lower raw2 →
  (_get_env_bool (<[ name := raw1 ]> env) name default).1 =
  (_get_env_bool (<[ name := raw2 ]> env) name default).1.
Proof.
  intros Hlower. unfold _get_env_bool, getenv.
  rewrite !lookup_insert_eq.
  rewrite <- (normalized_ascii_lower raw1), <- (normalized_ascii_lower raw2), Hlower.
  repeat case_decide; done.
Qed.

End BooleanParserInsensitivity.


Lemma get_env_bool_ignores_case_witness :
  (config._get_env_bool (database := unicode.sample)
     (<[ "HEADLESS" := "YeS" ]> ∅) "HEADLESS" false).1 =
  (config._get_env_bool (database := unicode.sample)
     (<[ "HEADLESS" := "yes" ]> ∅) "HEADLESS" false).1.
Proof.
  apply (get_env_bool_ignores_case (database := unicode.sample)
           ∅ "HEADLESS" "YeS" "yes" false); reflexivity.
Defined.

(** ** Configuration: the [Config] class and the module as a whole *)

Section ConfigClass.
Import config.
Context {database : unicode.UnicodeData}.

Lemma get_env_int_of_text (max_str_digits : Z) (env : environ) (name raw : string)
    (default : Z) :
  getenv env name = Some raw →
  _get_env_int max_str_digits env name default =
    _get_env_int max_str_digits {[ name := raw ]} name default.
Proof.
  intros Hraw. unfold _get_env_int, getenv in *.
  by rewrite Hraw, lookup_singleton_eq.
Qed.

(** [int] refuses exactly the texts that are not numeric or have more
    digits than the interpreter allows. *)
Lemma int_refuses (max_str_digits : Z) (s : string) :
  pyint.int max_str_digits s = None ↔
  ∀ v n, numeral.reads_as (unicode.code_points s) v n →
         ¬ numeral.within_limit max_str_digits n.
Proof.
  split.
  - intros Hnone v n Hr Hl.
    assert (pyint.int max_str_digits s = Some v) by (apply int_reads_as; eauto).
    congruence.
  - intros Hnot. destruct (pyint.int max_str_digits s) as [v |] eqn:Hint; [| done].
    apply int_reads_as in Hint as (n & Hr & Hl). by destruct (Hnot v n).
Qed.

(** X3. With none of the five variables set, the configuration is the
    documented defaults and nothing is warned about, whatever else the
    environment holds. *)
Theorem Config_defaults (max_str_digits : Z) (env : environ) :
  env !! "BASE_URL" = None → env !! "DEFAULT_TIMEOUT" = None →
  env !! "HEADLESS" = None → env !! "DEFAULT_BROWSER" = None →
  env !! "TEST_DATA_PATH" = None →
  Config_of max_str_digits env =
    ({| BASE_URL := "https://www.kiwi.com/en/";
        DEFAULT_TIMEOUT := 15000;
        HEADLESS := false;
        DEFAULT_BROWSER := "chromium";
        TEST_DATA_PATH := "test_data" |}, []).
Proof.
  intros Hurl Htimeout Hheadless Hbrowser Hdata.
  unfold Config_of, _get_env_int, _get_env_bool, getenv, getenv_default.
  by rewrite Hurl, Htimeout, Hheadless, Hbrowser, Hdata.
Qed.

(** X4. A malformed typed setting configures the run exactly as if the
    variable were not set at all; it only adds its warning.  This holds
    for a HEADLESS text that [strip] and [lower] do not turn into one
    of the eight tokens, and for a DEFAULT_TIMEOUT text that is not
    numeric or has more digits than the interpreter allows. *)
Theorem Config_malformed_is_unset (max_str_digits : Z) (env : environ) (raw : string) :
  (env !! "HEADLESS" = Some raw →
   unicode.lower (unicode.strip (unicode.code_points raw))
     ∉ unicode.code_points <$> ["1"; "true"; "yes"; "on"] →
   unicode.lower (unicode.strip (unicode.code_points raw))
     ∉ unicode.code_points <$> ["0"; "false"; "no"; "off"] →
     (Config_of max_str_digits env).1 =
       (Config_of max_str_digits (delete "HEADLESS" env)).1 ∧
     (Config_of max_str_digits env).2 =
       (Config_of max_str_digits (delete "HEADLESS" env)).2
         ++ [RuntimeWarning (invalid_boolean_message "HEADLESS" raw false)]) ∧
  (env !! "DEFAULT_TIMEOUT" = Some raw →
   (∀ v n, numeral.reads_as (unicode.code_points raw) v n →
           ¬ numeral.within_limit max_str_digits n) →
     (Config_of max_str_digits env).1 =
       (Config_of max_str_digits (delete "DEFAULT_TIMEOUT" env)).1 ∧
     (Config_of max_str_digits env).2 =
       RuntimeWarning (invalid_integer_message "DEFAULT_TIMEOUT" raw 15000)
         :: (Config_of max_str_digits (delete "DEFAULT_TIMEOUT" env)).2).
Proof.
  split.
  - intros Hraw Ht Hf. rewrite <- elem_of_truthy in Ht. rewrite <- elem_of_falsy in Hf.
    unfold Config_of, _get_env_int, _get_env_bool, getenv, getenv_default.
    rewrite Hraw, !decide_False by done.
    rewrite lookup_delete_eq, !lookup_delete_ne by done.
    destruct (env !! "DEFAULT_TIMEOUT") as [t |]; simpl; [| done].
    by destruct (pyint.int max_str_digits t).
  - intros Hraw Hint%int_refuses.
    unfold Config_of, _get_env_int, _get_env_bool, getenv, getenv_default.
    rewrite Hraw, Hint, lookup_delete_eq, !lookup_delete_ne by done.
    destruct (env !! "HEADLESS") as [h |]; simpl; [| done].
    repeat case_decide; done.
Qed.

(** X5. The browser is launched headless exactly when HEADLESS is set to
    a text that [strip] and [lower] turn into 1, true, yes or on; an
    unset, false or malformed HEADLESS launches it headed. *)
Theorem launch_headless_iff_truthy (max_str_digits : Z) (env : environ) :
  conftest.headless (conftest.browser_type_launch_args (Config_of max_str_digits env).1)
    = true
  ↔ ∃ raw, env !! "HEADLESS" = Some raw ∧
           unicode.lower (unicode.strip (unicode.code_points raw))
             ∈ unicode.code_points <$> ["1"; "true"; "yes"; "on"].
Proof.
  unfold Config_of.
  destruct (_get_env_int max_str_digits env "DEFAULT_TIMEOUT" 15000) as [timeout w1].
  destruct (_get_env_bool env "HEADLESS" false) as [b w2] eqn:Hbool. simpl.
  unfold _get_env_bool, getenv in Hbool.
  destruct (env !! "HEADLESS") as [raw |] eqn:Hraw.
  - setoid_rewrite <- elem_of_truthy. split.
    + intros ->. exists raw. split; [done |].
      repeat case_decide; by simplify_eq.
    + intros (raw' & [= <-] & Ht). rewrite decide_True in Hbool by done. by simplify_eq.
  - simplify_eq. split; [done | by intros (? & ? & _)].
Qed.

End ConfigClass.

Lemma Config_defaults_witness :
  config.Config_of (database := unicode.sample) 4300 {[ "TEST_ENV" := "staging" ]} =
    ({| config.BASE_URL := "https://www.kiwi.com/en/";
        config.DEFAULT_TIMEOUT := 15000;
        config.HEADLESS := false;
        config.DEFAULT_BROWSER := "chromium";
        config.TEST_DATA_PATH := "test_data" |}, []).
Proof.
  apply (Config_defaults (database := unicode.sample) 4300 {[ "TEST_ENV" := "staging" ]});
    reflexivity.
Defined.

(** A HEADLESS that is no token and a DEFAULT_TIMEOUT that is no number
    leave the configuration as without them. *)
Lemma Config_malformed_is_unset_witness :
  (config.Config_of (database := unicode.sample) 4300
     {[ "HEADLESS" := "maybe"; "BASE_URL" := "https://t/" ]}).1 =
    (config.Config_of (database := unicode.sample) 4300
       (delete "HEADLESS" {[ "HEADLESS" := "maybe"; "BASE_URL" := "https://t/" ]})).1 ∧
  (config.Config_of (database := unicode.sample) 4300
     {[ "DEFAULT_TIMEOUT" := "15s" ]}).1 =
    (config.Config_of (database := unicode.sample) 4300
       (delete "DEFAULT_TIMEOUT" {[ "DEFAULT_TIMEOUT" := "15s" ]})).1.
Proof.
  split.
  - apply (Config_malformed_is_unset (database := unicode.sample) 4300
             {[ "HEADLESS" := "maybe"; "BASE_URL" := "https://t/" ]} "maybe");
      [reflexivity | |]; rewrite list_elem_of_In; vm_compute; intuition discriminate.
  - apply (Config_malformed_is_unset (database := unicode.sample) 4300
             {[ "DEFAULT_TIMEOUT" := "15s" ]} "15s"); [reflexivity |].
    intros v n Hr%parse_reads_as. vm_compute in Hr. discriminate.
Defined.

(** HEADLESS set to [true] after a no-break space launches headless. *)
Lemma launch_headless_iff_truthy_witness :
  conftest.headless
    (conftest.browser_type_launch_args
       (config.Config_of (database := unicode.sample) 4300
          {[ "HEADLESS" := unicode.of_bytes [194; 160]%N +:+ "true" ]}).1) = true.
Proof.
  apply (launch_headless_iff_truthy (database := unicode.sample) 4300
           {[ "HEADLESS" := unicode.of_bytes [194; 160]%N +:+ "true" ]}).
  exists (unicode.of_bytes [194; 160]%N +:+ "true").
  split; [reflexivity | apply list_elem_of_In; vm_compute; tauto].
Defined.

Section ConfigModule.
Import config.
Context {database : unicode.UnicodeData}.
Context {Path : Type} {pathlib : PathLib Path}.
Variable fs : FileSystem Path.

Lemma load_first_none (paths : list Path) (env : environ) :
  (∀ q, q ∈ paths → exists_ fs q = false) →
  load_first fs paths env =
    (load_dotenv fs None false env, [ {| dotenv_path := None; override := false |} ]).
Proof.
  intros Hnone. induction paths as [| q paths IH]; [done |]. simpl.
  rewrite (Hnone q) by apply list_elem_of_here.
  apply IH. intros r Hr. apply Hnone. by apply list_elem_of_further.
Qed.

(** X6. When none of the candidate files exists, the only thing done is
    one [load_dotenv()] without a path and without override: every
    variable already set keeps its value, a variable that is not set
    takes the value the discovered file gives it, and without a
    discovered file the environment is left as it was. *)
Theorem load_environment_fallback (env : environ) :
  (∀ q, q ∈ candidate_paths env → exists_ fs q = false) →
  let loaded := _load_environment fs env in
  loaded.2 = [ {| dotenv_path := None; override := false |} ] ∧
  (∀ key value, env !! key = Some value → loaded.1 !! key = Some value) ∧
  (find_dotenv fs = None → loaded.1 = env) ∧
  (∀ q key, find_dotenv fs = Some q → env !! key = None →
     loaded.1 !! key = dotenv_dict fs q false env !! key).
Proof.
  intros Hnone loaded. unfold loaded, _load_environment.
  rewrite load_first_none by done. unfold load_dotenv. simpl.
  split_and!.
  - done.
  - intros key value Hkey. destruct (find_dotenv fs); [| done].
    by apply lookup_union_Some_l.
  - by intros ->.
  - intros q key -> Hkey. by apply lookup_union_r.
Qed.

(** X7. Importing the module with a candidate file on disk: the
    configuration is read from the environment the file has overridden,
    so a setting the file defines is taken from the file even when the
    process environment had set it differently. *)
Theorem import_config_file_wins (max_str_digits : Z) (env : environ)
    (before after : list Path) (p : Path) :
  candidate_paths env = before ++ p :: after →
  (∀ q, q ∈ before → exists_ fs q = false) → exists_ fs p = true →
  let file := dotenv_dict fs p true env in
  let '(cls, warnings, loaded, calls) := import_config fs max_str_digits env in
  (cls, warnings) = Config_of max_str_digits (file ∪ env) ∧
  (∀ url, file !! "BASE_URL" = Some url → BASE_URL cls = url) ∧
  (∀ name, file !! "DEFAULT_BROWSER" = Some name → DEFAULT_BROWSER cls = name) ∧
  (∀ path, file !! "TEST_DATA_PATH" = Some path → TEST_DATA_PATH cls = path) ∧
  (∀ raw, file !! "HEADLESS" = Some raw →
     HEADLESS cls = (_get_env_bool {[ "HEADLESS" := raw ]} "HEADLESS" false).1) ∧
  (∀ raw, file !! "DEFAULT_TIMEOUT" = Some raw →
     DEFAULT_TIMEOUT cls =
       (_get_env_int max_str_digits {[ "DEFAULT_TIMEOUT" := raw ]} "DEFAULT_TIMEOUT" 15000).1).
Proof.
  intros Hcand Hbefore Hp file. unfold import_config, _load_environment.
  rewrite Hcand, load_first_stops by done. cbn [fst snd]. fold file.
  split_and!.
  - by destruct (Config_of max_str_digits (file ∪ env)).
  - intros url Hurl. unfold Config_of.
    destruct (_get_env_int _ _ _ _), (_get_env_bool _ _ _). simpl.
    unfold getenv_default. by rewrite (lookup_union_Some_l _ _ _ _ Hurl).
  - intros name Hname. unfold Config_of.
    destruct (_get_env_int _ _ _ _), (_get_env_bool _ _ _). simpl.
    unfold getenv_default. by rewrite (lookup_union_Some_l _ _ _ _ Hname).
  - intros path Hpath. unfold Config_of.
    destruct (_get_env_int _ _ _ _), (_get_env_bool _ _ _). simpl.
    unfold getenv_default. by rewrite (lookup_union_Some_l _ _ _ _ Hpath).
  - intros raw Hraw. unfold Config_of.
    rewrite <- (get_env_bool_of_text (file ∪ env) "HEADLESS" raw false)
      by (by apply lookup_union_Some_l).
    by destruct (_get_env_int _ _ _ _), (_get_env_bool _ _ _).
  - intros raw Hraw. unfold Config_of.
    rewrite <- (get_env_int_of_text max_str_digits (file ∪ env) "DEFAULT_TIMEOUT" raw 15000)
      by (by apply lookup_union_Some_l).
    by destruct (_get_env_int _ _ _ _), (_get_env_bool _ _ _).
Qed.

End ConfigModule.

(** The fallback on a disk without candidate files: a discovered file
    fills in BASE_URL only where the system had not set it. *)
Lemma load_environment_fallback_witness :
  let fs : config.FileSystem string :=
    {| config.exists_ := λ _, false;
       config.dotenv_dict := λ _ _ _, {[ "BASE_URL" := "https://d/"; "HEADLESS" := "true" ]};
       config.find_dotenv := Some "/home/ci/.env" |} in
  let env : gmap string string := {[ "BASE_URL" := "https://sys/" ]} in
  (@config._load_environment _ config.posix_paths fs env).1 !! "BASE_URL"
    = Some "https://sys/" ∧
  (@config._load_environment _ config.posix_paths fs env).1 !! "HEADLESS" = Some "true".
Proof.
  intros fs env.
  destruct (@load_environment_fallback _ config.posix_paths fs env)
    as (_ & Hkept & _ & Hfilled); [done |].
  split.
  - by apply Hkept.
  - by rewrite (Hfilled "/home/ci/.env" "HEADLESS").
Defined.

(** The file wins: TEST_ENV=staging with [env/staging.env] on disk. *)
Lemma import_config_file_wins_witness :
  let fs := config.fs_of_files
              {[ "env/staging.env" :=
                   {[ "BASE_URL" := "https://staging/"; "HEADLESS" := "true" ]} ]} in
  let env : gmap string string :=
    {[ "TEST_ENV" := "staging"; "BASE_URL" := "https://sys/"; "HEADLESS" := "0" ]} in
  config.BASE_URL (@config.import_config unicode.sample _ config.posix_paths fs 4300 env).1.1.1
    = "https://staging/" ∧
  config.HEADLESS (@config.import_config unicode.sample _ config.posix_paths fs 4300 env).1.1.1 = true.
Proof.
  intros fs env.
  pose proof (@import_config_file_wins unicode.sample _ config.posix_paths fs 4300 env
                [] [ "staging.env"; "env/test.env"; "test.env"; ".env" ]
                "env/staging.env") as Hwins.
  destruct (@config.import_config unicode.sample _ config.posix_paths fs 4300 env)
    as [[[cls warnings] loaded] calls].
  destruct Hwins as (_ & Hurl & _ & _ & Hheadless & _).
  - reflexivity.
  - intros q Hq. by apply elem_of_nil in Hq.
  - reflexivity.
  - split.
    + by apply Hurl.
    + cbn [fst]. rewrite (Hheadless "true"); reflexivity.
Defined.

(** ** Configuration: the diagnostic dump *)

Section PrintConfig.
Import config.














End PrintConfig.


(** Without the condition the dump can be ambiguous: a newline in
    BASE_URL or in TEST_DATA_PATH lets two different configurations
    write the same text, of twelve lines. *)
Example print_config_with_newlines :
  let middle : string :=
    String pystr.newline "DEFAULT_TIMEOUT: 5" +:+ String pystr.newline "HEADLESS: True"
      +:+ String pystr.newline "DEFAULT_BROWSER: b"
      +:+ String pystr.newline "TEST_DATA_PATH: " in
  let long_url : config.Config :=
    {| config.BASE_URL := "u" +:+ middle +:+ "d"; config.DEFAULT_TIMEOUT := 5;
       config.HEADLESS := true; config.DEFAULT_BROWSER := "b";
       config.TEST_DATA_PATH := "e" |} in
  let long_path : config.Config :=
    {| config.BASE_URL := "u"; config.DEFAULT_TIMEOUT := 5;
       config.HEADLESS := true; config.DEFAULT_BROWSER := "b";
       config.TEST_DATA_PATH := "d" +:+ middle +:+ "e" |} in
  long_url ≠ long_path ∧
  config.print_config long_url ∅ = config.print_config long_path ∅ ∧
  length (pystr.lines (config.print_config long_url ∅)) = 12%nat.
Proof. vm_compute. split_and!; [discriminate | reflexivity | reflexivity]. Qed.

(** ** The page object: page load and consent *)

Section PageLoad.
Import playwright py home_page policy.
Context {Page : Type} {browser : Playwright Page}.

(** X9. [navigate] loads the page object's URL and waits for the load
    event; it returns normally exactly when these two calls come back.
    Whatever happens while the consent popup is dismissed never makes it
    fail. *)
Theorem navigate_fails_only_on_page_load (config : config.Config) (self : HomePage)
    (w : World Page) :
  ((navigate config self w).1 = Return () ↔
     ∃ b1 p1 b2 p2,
       perform (goto (url self)) (page w) = (returned b1, p1) ∧
       perform (wait_for_load_state "load") p1 = (returned b2, p2)) ∧
  (∃ made, calls (navigate config self w).2 = calls w ++ goto (url self) :: made).
Proof.
  unfold navigate, calls, mbind, mret, PO_bind, PO_ret, bind, ret, ui.
  destruct (perform (goto (url self)) (page w)) as [[b1 | m1] p1] eqn:Hgoto;
    cbn [fst snd page ui_log today stdout].
  2:{ split.
      - split; [discriminate | by intros (? & ? & ? & ? & ? & _)].
      - exists []. by rewrite fmap_app. }
  destruct (perform (wait_for_load_state "load") p1) as [[b2 | m2] p2] eqn:Hwait;
    cbn [fst snd page ui_log today stdout].
  2:{ split.
      - split; [discriminate |]. intros (? & ? & ? & ? & [= -> ->] & Hw).
        rewrite Hwait in Hw. discriminate.
      - eexists [_]. by rewrite <- app_assoc, fmap_app. }
  set (w2 := {| page := p2; today := today w;
                ui_log := (ui_log w ++ [(goto (url self), returned b1)])
                            ++ [(wait_for_load_state "load", returned b2)];
                stdout := stdout w |}).
  destruct (accept_privacy_consent_catches config self w2) as (b & entries & Hres & Hlog & _).
  destruct (accept_privacy_consent config self w2) as [[b' | e] w3]; [| discriminate].
  cbn [fst snd] in *. split.
  - split; [| done]. intros _. by exists b1, p1, b2, p2.
  - exists (wait_for_load_state "load" :: entries.*1).
    rewrite Hlog. unfold w2. cbn [ui_log]. rewrite <- !app_assoc, !fmap_app. done.
Qed.

(** X10. [accept_privacy_consent] answers [True] exactly when the popup
    was reported visible and the click on it came back.  When the popup
    is reported not visible it makes no further call, prints so and
    answers [False].  Its calls go to the consent button only: the
    visibility query with 5000 ms and the click with the configured
    default timeout. *)
Theorem consent_accepted_iff_clicked (config : config.Config) (self : HomePage)
    (w : World Page) :
  let asked := is_visible privacy_popup_accept_button (Some 5000) in
  let clicked :=
    click privacy_popup_accept_button (Some (config.DEFAULT_TIMEOUT config)) in
  let result := accept_privacy_consent config self w in
  (result.1 = Return true ↔
     ∃ p1 b p2, perform asked (page w) = (returned true, p1) ∧
                perform clicked p1 = (returned b, p2)) ∧
  (∀ p1, perform asked (page w) = (returned false, p1) →
     result = (Return false,
               after_print (after_call w asked (returned false) p1)
                 "Privacy consent popup not visible")) ∧
  (∃ made, calls result.2 = calls w ++ made ∧ made `prefix_of` [asked; clicked]).
Proof.
  intros asked clicked result.
  unfold result, accept_privacy_consent, calls.
  unfold mbind, mret, PO_bind, PO_ret, bind, ret, try_except, print, ui.
  fold asked clicked.
  destruct (perform asked (page w)) as [[[] | m] p1] eqn:Hasked; cbn [fst snd page ui_log today stdout].
  - destruct (perform clicked p1) as [[b | m] p2] eqn:Hclicked; cbn [fst snd page ui_log today stdout].
    + split_and!.
      * split; [| done]. intros _. by exists p1, b, p2.
      * intros ? [=].
      * exists [asked; clicked]. by rewrite <- app_assoc, !fmap_app.
    + split_and!.
      * split; [discriminate |]. intros (? & ? & ? & [= <-] & Hc).
        rewrite Hclicked in Hc. discriminate.
      * intros ? [=].
      * exists [asked; clicked]. by rewrite <- app_assoc, !fmap_app.
  - split_and!.
    + split; [discriminate | by intros (? & ? & ? & ? & _)].
    + by intros ? [= <-].
    + exists [asked]. rewrite fmap_app. split; [done | by eexists].
  - split_and!.
    + split; [discriminate | by intros (? & ? & ? & ? & _)].
    + intros ? [=].
    + exists [asked]. rewrite fmap_app. split; [done | by eexists].
Qed.

End PageLoad.

(** ** The page object: airports *)

Section AirportSetters.
Import playwright py home_page policy.
Context {Page : Type} {browser : Playwright Page}.

(** The calls of a complete run of an airport setter. *)
Lemma airport_setter_run (clear_button input : Locator) (code name : string)
    (w : World Page) :
  let m : PO Page () :=
    visible ← ui (is_visible clear_button None);
    (if (visible : bool) then ui (click clear_button None) else mret false);;
    ui (click input None);;
    ui (fill input code);;
    ui (click (get_by_role "button" (text (name +:+ " Add"))) None);;
    mret () in
  let tail := [ click input None; fill input code;
                click (get_by_role "button" (text (name +:+ " Add"))) None ] in
  ∃ made,
    calls (m w).2 = calls w ++ made ∧
    (made `prefix_of` is_visible clear_button None :: click clear_button None :: tail ∨
     made `prefix_of` is_visible clear_button None :: tail) ∧
    ((m w).1 = Return () →
       ∃ visible p,
         perform (is_visible clear_button None) (page w) = (returned visible, p) ∧
         made = is_visible clear_button None
                  :: (if visible then [click clear_button None] else []) ++ tail).
Proof.
  intros m tail. unfold m, tail, calls.
  unfold mbind, mret, PO_bind, PO_ret, bind, ret, ui.
  destruct (perform (is_visible clear_button None) (page w)) as [[[] | m0] p0];
    cbn [fst snd page ui_log today stdout].
  - destruct (perform (click clear_button None) p0) as [[b1 | m1] p1];
      cbn [fst snd page ui_log today stdout].
    + destruct (perform (click input None) p1) as [[b2 | m2] p2];
        cbn [fst snd page ui_log today stdout].
      * destruct (perform (fill input code) p2) as [[b3 | m3] p3];
          cbn [fst snd page ui_log today stdout].
        -- destruct (perform (click (get_by_role "button" (text (name +:+ " Add"))) None) p3)
             as [[b4 | m4] p4]; cbn [fst snd page ui_log today stdout];
             (eexists [_; _; _; _; _]; rewrite <- !app_assoc, fmap_app;
              split_and!; [done | left; done |]).
           ++ intros _. by exists true, p0.
           ++ discriminate.
        -- eexists [_; _; _; _]. rewrite <- !app_assoc, fmap_app.
           split_and!; [done | left; by eexists | discriminate].
      * eexists [_; _; _]. rewrite <- !app_assoc, fmap_app.
        split_and!; [done | left; by eexists | discriminate].
    + eexists [_; _]. rewrite <- !app_assoc, fmap_app.
      split_and!; [done | left; by eexists | discriminate].
  - destruct (perform (click input None) p0) as [[b2 | m2] p2];
      cbn [fst snd page ui_log today stdout].
    + destruct (perform (fill input code) p2) as [[b3 | m3] p3];
        cbn [fst snd page ui_log today stdout].
      * destruct (perform (click (get_by_role "button" (text (name +:+ " Add"))) None) p3)
          as [[b4 | m4] p4]; cbn [fst snd page ui_log today stdout];
          (eexists [_; _; _; _]; rewrite <- !app_assoc, fmap_app;
           split_and!; [done | right; done |]).
        -- intros _. by exists false, p0.
        -- discriminate.
      * eexists [_; _; _]. rewrite <- !app_assoc, fmap_app.
        split_and!; [done | right; by eexists | discriminate].
    + eexists [_; _]. rewrite <- !app_assoc, fmap_app.
      split_and!; [done | right; by eexists | discriminate].
  - eexists [_]. rewrite fmap_app.
    split_and!; [done | right; by eexists | discriminate].
Qed.

(** X11. For a mapped code, a run of [set_departure_airport] that returns
    has made exactly these calls, in order: the visibility query on the
    departure clear button, a click on it only if it was reported
    visible, a click on the departure input, the typing of the code
    given into that input, and a click on the suggestion button named
    after the mapped display name followed by Add.  A run that raises
    stopped somewhere along this sequence; in no case is the arrival
    input or its clear button touched.  [set_arrival_airport] does the
    same on the arrival side. *)
Theorem airport_setter_call_sequence (self : HomePage) (code name : string)
    (w : World Page) :
  airports.AIRPORT_MAPPINGS !! code = Some name →
  let suggestion := click (get_by_role "button" (text (name +:+ " Add"))) None in
  (∃ made,
     calls (set_departure_airport self code w).2 = calls w ++ made ∧
     (∀ c, c ∈ made →
        c ∈ [ is_visible clear_button_on_departure None;
              click clear_button_on_departure None;
              click from_airport_input None; fill from_airport_input code;
              suggestion ]) ∧
     ((set_departure_airport self code w).1 = Return () →
        ∃ visible p,
          perform (is_visible clear_button_on_departure None) (page w)
            = (returned visible, p) ∧
          made = is_visible clear_button_on_departure None
                   :: (if visible then [click clear_button_on_departure None] else [])
                   ++ [ click from_airport_input None; fill from_airport_input code;
                        suggestion ])) ∧
  (∃ made,
     calls (set_arrival_airport self code w).2 = calls w ++ made ∧
     (∀ c, c ∈ made →
        c ∈ [ is_visible clear_button_on_arrival None;
              click clear_button_on_arrival None;
              click to_airport_input None; fill to_airport_input code;
              suggestion ]) ∧
     ((set_arrival_airport self code w).1 = Return () →
        ∃ visible p,
          perform (is_visible clear_button_on_arrival None) (page w)
            = (returned visible, p) ∧
          made = is_visible clear_button_on_arrival None
                   :: (if visible then [click clear_button_on_arrival None] else [])
                   ++ [ click to_airport_input None; fill to_airport_input code;
                        suggestion ])).
Proof.
  intros Hname suggestion. split.
  - unfold set_departure_airport. rewrite Hname.
    destruct (airport_setter_run clear_button_on_departure from_airport_input code name w)
      as (made & Hcalls & Hprefix & Hdone).
    exists made. split_and!; [done | | done].
    intros c Hc. destruct Hprefix as [[rest Hrest] | [rest Hrest]].
    + assert (Hin : c ∈ made ++ rest) by (apply elem_of_app; by left).
      by rewrite <- Hrest in Hin.
    + assert (Hin : c ∈ made ++ rest) by (apply elem_of_app; by left).
      rewrite <- Hrest in Hin. rewrite !elem_of_cons in *. tauto.
  - unfold set_arrival_airport. rewrite Hname.
    destruct (airport_setter_run clear_button_on_arrival to_airport_input code name w)
      as (made & Hcalls & Hprefix & Hdone).
    exists made. split_and!; [done | | done].
    intros c Hc. destruct Hprefix as [[rest Hrest] | [rest Hrest]].
    + assert (Hin : c ∈ made ++ rest) by (apply elem_of_app; by left).
      by rewrite <- Hrest in Hin.
    + assert (Hin : c ∈ made ++ rest) by (apply elem_of_app; by left).
      rewrite <- Hrest in Hin. rewrite !elem_of_cons in *. tauto.
Qed.

End AirportSetters.

(** ** Dates: every day number is a date *)

Section Ordinals.
Import datetime.

Lemma toordinal_le_max (d : date) : valid d → toordinal d <= _MAXORDINAL.
Proof.
  intros Hvalid. destruct (month_facts d Hvalid) as (Hn & _).
  destruct Hvalid as (Hy & _). unfold MINYEAR, MAXYEAR in *.
  destruct (year_shape (year d) ltac:(lia)) as (A & c & f & e & Hshape & ? & ? & ? & ? & Hdby & Hleap).
  unfold toordinal, _ymd2ord, _MAXORDINAL.
  rewrite Hleap in Hn.
  assert (A <= 24) by lia.
  destruct (Z.eqb_spec e 3), (Z.eqb_spec f 24), (Z.eqb_spec c 3); simpl in Hn; lia.
Qed.

Lemma fromordinal_valid (o : Z) :
  1 <= o <= _MAXORDINAL → valid (fromordinal o) ∧ toordinal (fromordinal o) = o.
Proof.
  intros Ho.
  assert (Hfirst : valid first_day) by (unfold valid; vm_compute; intuition discriminate).
  destruct (days_later first_day (Z.to_nat (o - 1)) Hfirst) as (Hv & Hord & _).
  { change (toordinal first_day) with 1. lia. }
  change (toordinal first_day) with 1 in Hord.
  replace o with (toordinal (Nat.iter (Z.to_nat (o - 1)) next_day first_day)) at 1 2 by lia.
  rewrite fromordinal_toordinal by done. split; [done | lia].
Qed.

(** Adding days, forwards or backwards, when the result is a date. *)
Lemma add_in_range (d : date) (n : Z) :
  valid d → 1 <= toordinal d + n <= _MAXORDINAL →
  timedelta n = Some n ∧
  ∃ target, add d n = Some target ∧ valid target ∧ toordinal target = toordinal d + n.
Proof.
  intros Hvalid Hrange.
  pose proof (toordinal_positive d Hvalid). pose proof (toordinal_le_max d Hvalid).
  destruct (fromordinal_valid (toordinal d + n) Hrange) as (Hv & Ho).
  split.
  - unfold timedelta. unfold _MAXORDINAL in *.
    destruct (Z.leb_spec (Z.abs n) 999999999); [done | lia].
  - exists (fromordinal (toordinal d + n)). split_and!; [| done | done].
    unfold add.
    replace ((0 <? toordinal d + n) && (toordinal d + n <=? _MAXORDINAL)) with true; [done |].
    symmetry. apply andb_true_iff. rewrite Z.ltb_lt, Z.leb_le. lia.
Qed.

(** Outside the range the addition is refused. *)
Lemma add_out_of_range (d : date) (n : Z) :
  toordinal d + n <= 0 ∨ _MAXORDINAL < toordinal d + n → add d n = None.
Proof.
  intros Hout. unfold add.
  replace ((0 <? toordinal d + n) && (toordinal d + n <=? _MAXORDINAL)) with false; [done |].
  symmetry. apply andb_false_iff. rewrite Z.ltb_ge, Z.leb_gt. lia.
Qed.

(** *** The text of a date tells the date *)

Lemma app_length_inj (s1 s2 t1 t2 : string) :
  String.length s1 = String.length s2 → s1 +:+ t1 = s2 +:+ t2 → s1 = s2 ∧ t1 = t2.
Proof.
  revert s2. induction s1 as [| c s1 IH]; intros [| c2 s2]; simpl; try done.
  intros [= Hlen] [= -> Happ]. destruct (IH s2 Hlen Happ) as [-> ->]. done.
Qed.

Lemma two_digits_checked :
  forallb (λ a : Z, Nat.eqb (String.length (zfill 2 (pretty a))) 2
                    && forallb (λ b : Z, implb (String.eqb (zfill 2 (pretty a))
                                                           (zfill 2 (pretty b)))
                                               (a =? b))
                               (seqZ 1 31))
          (seqZ 1 31) = true.
Proof. vm_compute. reflexivity. Qed.

Lemma two_digits (a b : Z) :
  1 <= a <= 31 → 1 <= b <= 31 →
  String.length (zfill 2 (pretty a)) = 2%nat ∧
  (zfill 2 (pretty a) = zfill 2 (pretty b) → a = b).
Proof.
  intros Ha Hb. pose proof two_digits_checked as Hall.
  rewrite forallb_forall in Hall. specialize (Hall a).
  rewrite <- list_elem_of_In, elem_of_seqZ in Hall. specialize (Hall ltac:(lia)).
  apply andb_true_iff in Hall as [Hlen Hinj].
  split; [by apply Nat.eqb_eq |].
  rewrite forallb_forall in Hinj. specialize (Hinj b).
  rewrite <- list_elem_of_In, elem_of_seqZ in Hinj. specialize (Hinj ltac:(lia)).
  intros Heq. rewrite Heq, String.eqb_refl in Hinj. simpl in Hinj. by apply Z.eqb_eq.
Qed.

Lemma four_digit_length (y : Z) : 1000 <= y <= 9999 → String.length (pretty y) = 4%nat.
Proof.
  intros Hy. pose proof four_digit_years_checked as Hall.
  rewrite forallb_forall in Hall. specialize (Hall y).
  rewrite <- list_elem_of_In, elem_of_seqZ in Hall. specialize (Hall ltac:(lia)).
  by apply Nat.eqb_eq.
Qed.

Lemma strftime_inj (d1 d2 : date) :
  valid d1 → valid d2 → 1000 <= year d1 → 1000 <= year d2 →
  strftime_Y_m_d d1 = strftime_Y_m_d d2 → d1 = d2.
Proof.
  intros (Hy1 & Hm1 & Hd1) (Hy2 & Hm2 & Hd2) H1 H2. unfold MINYEAR, MAXYEAR in *.
  pose proof (days_in_month_bounds (year d1) (month d1) Hm1).
  pose proof (days_in_month_bounds (year d2) (month d2) Hm2).
  unfold strftime_Y_m_d. intros Heq.
  apply app_length_inj in Heq as [Hy Heq];
    [| by rewrite !four_digit_length by lia].
  apply (inj pretty) in Hy.
  apply (inj (String.app "-")) in Heq.
  destruct (two_digits (month d1) (month d2)) as [Hlm Him]; [lia | lia |].
  destruct (two_digits (month d2) (month d1)) as [Hlm' _]; [lia | lia |].
  apply app_length_inj in Heq as [Hm Heq]; [| congruence].
  apply (inj (String.app "-")) in Heq.
  destruct (two_digits (day d1) (day d2)) as [_ Hid]; [lia | lia |].
  destruct d1, d2. simpl in *. f_equal; auto.
Qed.

End Ordinals.

(** ** The page object: date picking beyond the forward range *)

Section DatePicking.
Import playwright py home_page.
Context {Page : Type} {browser : Playwright Page}.

Lemma append_length (s t : string) :
  String.length (s +:+ t) = (String.length s + String.length t)%nat.
Proof. induction s as [| c s IH]; simpl; [done | by rewrite IH]. Qed.

Lemma app_inj_r (s1 s2 t : string) : s1 +:+ t = s2 +:+ t → s1 = s2.
Proof.
  intros Heq. apply (app_length_inj s1 s2 t t); [| done].
  apply (f_equal String.length) in Heq. rewrite !append_length in Heq. lia.
Qed.

Lemma date_cell_inj (s1 s2 : string) : date_cell s1 = date_cell s2 → s1 = s2.
Proof.
  unfold date_cell. intros [= Heq].
  apply (inj (String.app _)) in Heq. by apply app_inj_r in Heq.
Qed.

Lemma today_plus_in_range (total_days : Z) (w : World Page) :
  datetime.valid (today w) →
  1 <= datetime.toordinal (today w) + total_days <= datetime._MAXORDINAL →
  ∃ target,
    today_plus total_days w = (Return target, w) ∧ datetime.valid target ∧
    datetime.toordinal target = datetime.toordinal (today w) + total_days.
Proof.
  intros Hvalid Hrange.
  destruct (add_in_range (today w) total_days Hvalid Hrange)
    as (Hdelta & target & Hadd & Hv & Ho).
  exists target. split_and!; [| done | done].
  unfold today_plus, mbind, mret, PO_bind, PO_ret, bind, ret, date_today.
  by rewrite Hdelta, Hadd.
Qed.

(** X12. When today plus the offset falls outside the dates a
    [datetime.date] can hold (before 0001-01-01 or after 9999-12-31),
    [set_departure_date] has already opened the date picker: once that
    click came back it raises [OverflowError], and the click on the date
    input is the only call it made. *)
Theorem departure_date_out_of_range (self : HomePage) (total_days : Z) (w : World Page)
    (b : bool) (p : Page) :
  datetime.toordinal (today w) + total_days <= 0 ∨
  datetime._MAXORDINAL < datetime.toordinal (today w) + total_days →
  perform (click departure_date_input None) (page w) = (returned b, p) →
  ∃ message,
    set_departure_date self total_days w =
      (Raise (OverflowError message),
       after_call w (click departure_date_input None) (returned b) p).
Proof.
  intros Hout Hclick.
  unfold set_departure_date, today_plus.
  unfold mbind, mret, PO_bind, PO_ret, bind, ret, raise, date_today, ui.
  rewrite Hclick. cbn [fst snd page ui_log today stdout].
  destruct (datetime.timedelta total_days) as [delta |] eqn:Hdelta.
  - assert (delta = total_days) as ->.
    { unfold datetime.timedelta in Hdelta. by destruct (_ <=? _); simplify_eq. }
    rewrite (add_out_of_range (today w) total_days Hout). by eexists.
  - by eexists.
Qed.

(** X13. The offset may be negative.  For any integer offset that keeps
    today plus the offset within 0001-01-01 .. 9999-12-31, the target
    computed is a calendar date exactly that many days away from today
    (earlier for a negative offset), and the calendar cell clicked is
    the one of that target. *)
Theorem departure_date_any_offset (self : HomePage) (total_days : Z) (w : World Page) :
  datetime.valid (today w) →
  1 <= datetime.toordinal (today w) + total_days <= datetime._MAXORDINAL →
  ∃ target,
    today_plus total_days w = (Return target, w) ∧
    datetime.valid target ∧
    datetime.toordinal target = datetime.toordinal (today w) + total_days ∧
    (∀ b p, perform (click departure_date_input None) (page w) = (returned b, p) →
       click (date_cell (datetime.strftime_Y_m_d target)) None
         ∈ calls (set_departure_date self total_days w).2).
Proof.
  intros Hvalid Hrange.
  destruct (today_plus_in_range total_days w Hvalid Hrange) as (target & Hplus & Hv & Ho).
  exists target. split_and!; try done.
  intros b p Hclick.
  destruct (set_departure_date_calls self total_days w target Hplus)
    as (made & Hcalls & _ & Hcell & _).
  rewrite Hcalls, elem_of_app. right. by apply (Hcell b p).
Qed.

(** X14. Offsets add up: the target for [a + b] days from today is the
    target for [b] days from the target for [a] days. *)
Theorem departure_offsets_compose (a b : Z) (w : World Page) :
  datetime.valid (today w) →
  1 <= datetime.toordinal (today w) + a <= datetime._MAXORDINAL →
  1 <= datetime.toordinal (today w) + a + b <= datetime._MAXORDINAL →
  ∃ first_target target,
    today_plus a w = (Return first_target, w) ∧
    (let w' := {| page := page w; today := first_target;
                  ui_log := ui_log w; stdout := stdout w |} in
     today_plus b w' = (Return target, w')) ∧
    today_plus (a + b) w = (Return target, w).
Proof.
  intros Hvalid Ha Hab.
  destruct (today_plus_in_range a w Hvalid Ha) as (ta & Hplus_a & Hva & Hoa).
  set (w' := {| page := page w; today := ta; ui_log := ui_log w; stdout := stdout w |}).
  destruct (today_plus_in_range b w') as (t & Hplus_b & Hvb & Hob).
  { done. } { simpl. lia. }
  destruct (today_plus_in_range (a + b) w Hvalid) as (t' & Hplus_ab & Hvab & Hoab); [lia |].
  exists ta, t. split_and!; [done | done |].
  rewrite Hplus_ab. repeat f_equal.
  rewrite <- (fromordinal_toordinal t'), <- (fromordinal_toordinal t) by done.
  f_equal. simpl in Hob. lia.
Qed.

(** X15. Different forward offsets never select the same calendar cell
    (for a current date of year 1000 or later, where the year is
    written on four digits). *)
Theorem distinct_offsets_distinct_cells (n1 n2 : Z) (w : World Page)
    (target1 target2 : datetime.date) :
  datetime.valid (today w) → 1000 <= datetime.year (today w) →
  0 <= n1 → 0 <= n2 → n1 ≠ n2 →
  today_plus n1 w = (Return target1, w) →
  today_plus n2 w = (Return target2, w) →
  date_cell (datetime.strftime_Y_m_d target1) ≠ date_cell (datetime.strftime_Y_m_d target2).
Proof.
  intros Hvalid Hyear Hn1 Hn2 Hne Hplus1 Hplus2 Hcell.
  apply date_cell_inj in Hcell.
  assert (Hshape : ∀ n t, 0 <= n → today_plus n w = (Return t, w) →
            datetime.valid t ∧ 1000 <= datetime.year t ∧
            datetime.toordinal t = datetime.toordinal (today w) + n).
  { intros n t Hn Hplus.
    unfold today_plus, mbind, mret, PO_bind, PO_ret, bind, ret, raise, date_today in Hplus.
    destruct (datetime.timedelta n) as [delta |] eqn:Hdelta; [| discriminate].
    assert (delta = n) as ->.
    { unfold datetime.timedelta in Hdelta. by destruct (_ <=? _); simplify_eq. }
    destruct (datetime.add (today w) n) as [t' |] eqn:Hadd; [| discriminate].
    injection Hplus as ->.
    assert (Hmax : datetime.toordinal (today w) + n <= datetime._MAXORDINAL).
    { unfold datetime.add in Hadd.
      destruct (Z.leb_spec (datetime.toordinal (today w) + n) datetime._MAXORDINAL);
        [done |]. rewrite andb_false_r in Hadd. discriminate. }
    destruct (days_later (today w) (Z.to_nat n) Hvalid) as (Hv & Ho & Hy); [lia |].
    destruct (add_days (today w) n Hvalid Hn Hmax) as (_ & Hadd').
    rewrite Hadd' in Hadd. injection Hadd as <-.
    split_and!; [done | lia | lia]. }
  destruct (Hshape n1 target1 Hn1 Hplus1) as (Hv1 & Hy1 & Ho1).
  destruct (Hshape n2 target2 Hn2 Hplus2) as (Hv2 & Hy2 & Ho2).
  apply strftime_inj in Hcell; [| done..].
  subst target2. lia.
Qed.

End DatePicking.

(** ** The step definitions, continued *)

Section MoreSteps.
Import playwright py home_page policy.
Context {Page : Type} {browser : Playwright Page}.

(** X16. Weeks are seven days: the departure-time step for [value]
    weeks behaves in every world exactly as the step for [7 * value]
    days, and the singular and plural unit words are interchangeable. *)
Theorem weeks_are_seven_days (config : config.Config) (value : Z) (w : World Page) :
  steps.set_departure_time config value "weeks" w =
    steps.set_departure_time config (7 * value) "days" w ∧
  steps.set_departure_time config value "week" w =
    steps.set_departure_time config value "weeks" w ∧
  steps.set_departure_time config value "day" w =
    steps.set_departure_time config value "days" w.
Proof.
  unfold steps.set_departure_time, mbind, mret, PO_bind, PO_ret, bind, ret.
  rewrite !(decide_True (P := "weeks" = "week" ∨ "weeks" = "weeks")) by auto.
  rewrite !(decide_True (P := "week" = "week" ∨ "week" = "weeks")) by auto.
  rewrite !(decide_False (P := "days" = "week" ∨ "days" = "weeks"))
    by (intros [? | ?]; discriminate).
  rewrite !(decide_False (P := "day" = "week" ∨ "day" = "weeks"))
    by (intros [? | ?]; discriminate).
  rewrite !(decide_True (P := "days" = "day" ∨ "days" = "days")) by auto.
  rewrite !(decide_True (P := "day" = "day" ∨ "day" = "days")) by auto.
  replace (7 * value) with (value * 7) by lia. done.
Qed.

(** X17. The airport steps of the scenario use codes that are in the
    mapping: they never end with the validation error, and like the
    operations they call they stop at the first browser call that
    raises, with that exception. *)
Theorem airport_steps_pass_validation (config : config.Config) (w : World Page)
    (message : string) :
  (steps.set_departure_airport config w).1 ≠ Raise (ValueError message) ∧
  (steps.set_arrival_airport config w).1 ≠ Raise (ValueError message) ∧
  propagates (steps.set_departure_airport config) ∧
  propagates (steps.set_arrival_airport config).
Proof.
  unfold steps.set_departure_airport, steps.set_arrival_airport. split_and!.
  - by apply (set_departure_airport_mapped _ "RTM" "Rome, Italy").
  - by apply (set_arrival_airport_mapped _ "MAD" "Madrid, Spain").
  - apply set_departure_airport_propagates.
  - apply set_arrival_airport_propagates.
Qed.

End MoreSteps.

(** ** The harness, continued *)

Section MoreHarness.
Import conftest.
Context {Page : Type}.
Variable screenshot : Page → string + string.

Lemma hook_events_run_test (t : TestItem Page) (g : Globals Page) :
  hook_events (run_test screenshot t g) = hook_events g ++ events_of_test screenshot t.
Proof.
  unfold run_test, teardown_phase, call_phase, setup_phase, events_of_test,
    pytest_runtest_makereport, page, set_test_failed_page, emit.
  cbn [when outcome at_yield yielded resume _test_failed_page hook_events].
  destruct (item_body t (item_page t)); simpl; rewrite ?app_nil_r; try done.
  by destruct (screenshot (item_page t)).
Qed.

(** A test leaves the reference empty when it found it empty. *)
Lemma run_item_clears (i : SessionItem Page) (g : Globals Page) :
  _test_failed_page g = None → _test_failed_page (run_item screenshot i g) = None.
Proof.
  intros Hg. destruct i as [t | body]; cbn [run_item].
  - apply run_test_clears.
  - unfold run_test_without_page. by rewrite !makereport_keeps_reference.
Qed.

Lemma hook_events_run_item (i : SessionItem Page) (g : Globals Page) :
  _test_failed_page g = None →
  hook_events (run_item screenshot i g) = hook_events g ++ events_of_item screenshot i.
Proof.
  intros Hg. destruct i as [t | body]; cbn [run_item events_of_item].
  - apply hook_events_run_test.
  - unfold run_test_without_page, pytest_runtest_makereport, emit.
    cbn [when outcome]. destruct body; simpl; rewrite ?app_nil_r; try done.
    by rewrite Hg.
Qed.

Lemma hook_events_run_items (items : list (SessionItem Page)) (g : Globals Page) :
  _test_failed_page g = None →
  hook_events (run_items screenshot items g) =
    hook_events g ++ concat (events_of_item screenshot <$> items).
Proof.
  revert g. induction items as [| i items IH]; intros g Hg; simpl.
  - by rewrite app_nil_r.
  - unfold run_items in *. simpl.
    rewrite IH by by apply run_item_clears.
    by rewrite hook_events_run_item, <- app_assoc.
Qed.

Lemma length_events_of_item (i : SessionItem Page) :
  length (events_of_item screenshot i) = if fails i then 1%nat else 0%nat.
Proof.
  destruct i as [t | body]; simpl.
  - unfold events_of_test. by destruct (item_body t (item_page t)).
  - by destruct body.
Qed.

(** What an event of a test says, and of which test. *)
Lemma elem_of_events_of_item (e : HookEvent Page) (i : SessionItem Page) :
  e ∈ events_of_item screenshot i →
  match e with
  | screenshot_attached p png =>
      ∃ t, i = uses_page t ∧ item_page t = p ∧ item_body t p = failed ∧
           screenshot p = inr png
  | capture_failed message =>
      ∃ t, i = uses_page t ∧ item_body t (item_page t) = failed ∧
           screenshot (item_page t) = inl message
  | page_not_available => i = no_page failed
  end.
Proof.
  destruct i as [t | body]; simpl.
  - unfold events_of_test. destruct (item_body t (item_page t)) eqn:Hbody;
      try (by intros ?%elem_of_nil).
    intros ->%list_elem_of_singleton.
    destruct (screenshot (item_page t)) eqn:Hshot; by exists t.
  - destruct body; try (by intros ?%elem_of_nil). by intros ->%list_elem_of_singleton.
Qed.

(** X18. Over a whole session that finds the reference empty, the
    failure hook leaves exactly one event per failing test, in the
    order of the tests, and nothing for a passing or skipped test.  The
    event of a test that uses the page is about that test's own page: a
    screenshot of it, or the message of the capture error.  A failing
    test that does not use the page gets the diagnostic that no page is
    available, and never the page of an earlier test. *)
Theorem session_hook_events (items : list (SessionItem Page)) (g : Globals Page) :
  _test_failed_page g = None →
  let events := hook_events (run_items screenshot items g) in
  events = hook_events g ++ concat (events_of_item screenshot <$> items) ∧
  length events = (length (hook_events g) + length (filter (λ i, fails i) items))%nat ∧
  (∀ e, e ∈ events → e ∈ hook_events g ∨
     match e with
     | screenshot_attached p png =>
         ∃ t, uses_page t ∈ items ∧ item_page t = p ∧ item_body t p = failed ∧
              screenshot p = inr png
     | capture_failed message =>
         ∃ t, uses_page t ∈ items ∧ item_body t (item_page t) = failed ∧
              screenshot (item_page t) = inl message
     | page_not_available => no_page failed ∈ items
     end).
Proof.
  intros Hg events. unfold events. rewrite hook_events_run_items by done.
  split_and!.
  - done.
  - rewrite length_app. f_equal. clear Hg.
    induction items as [| i items IH]; [done |].
    cbn [fmap list_fmap concat]. rewrite length_app, IH, length_events_of_item.
    rewrite filter_cons. destruct (fails i); by rewrite ?decide_True, ?decide_False by done.
  - intros e [He | He]%elem_of_app; [by left | right]. clear Hg.
    induction items as [| i items IH]; [by apply elem_of_nil in He |].
    cbn [fmap list_fmap concat] in He. apply elem_of_app in He as [He | He].
    + apply elem_of_events_of_item in He.
      destruct e as [p png | message |].
      * destruct He as (t & -> & ?). exists t. split; [apply list_elem_of_here | done].
      * destruct He as (t & -> & ?). exists t. split; [apply list_elem_of_here | done].
      * subst i. apply list_elem_of_here.
    + specialize (IH He). destruct e as [p png | message |].
      * destruct IH as (t & ? & ?). exists t. split; [by apply list_elem_of_further | done].
      * destruct IH as (t & ? & ?). exists t. split; [by apply list_elem_of_further | done].
      * by apply list_elem_of_further.
Qed.

(** X19. The hook acts on one kind of report only: unless the report is
    that of a failed call phase, it leaves the globals exactly as they
    were; and on a failed call with no page stored it only records that
    the page is not available.  It never changes the stored reference
    and never fails, even when the capture does. *)
Theorem makereport_only_on_call_failure (report : TestReport) (g : Globals Page) :
  (¬ (when report = call ∧ outcome report = failed) →
     pytest_runtest_makereport screenshot report g = g) ∧
  (when report = call → outcome report = failed → _test_failed_page g = None →
     pytest_runtest_makereport screenshot report g = emit page_not_available g) ∧
  (∀ p e, when report = call → outcome report = failed →
     _test_failed_page g = Some p → screenshot p = inl e →
     pytest_runtest_makereport screenshot report g = emit (capture_failed e) g) ∧
  _test_failed_page (pytest_runtest_makereport screenshot report g) = _test_failed_page g.
Proof.
  split_and!; [| | | apply makereport_keeps_reference]; unfold pytest_runtest_makereport.
  - intros Hnot. destruct (when report), (outcome report); try done.
    destruct Hnot. done.
  - by intros -> -> ->.
  - by intros p e -> -> -> ->.
Qed.

End MoreHarness.

(** A session of three tests: the first uses the page and fails, the
    second fails without using the page, the third uses the page and
    passes. *)
Lemma session_hook_events_witness :
  conftest.hook_events
    (conftest.run_items (λ p : nat, inr ("png of page " +:+ pretty p))
       [ conftest.uses_page
           {| conftest.item_page := 1%nat; conftest.item_body := λ _, conftest.failed |};
         conftest.no_page conftest.failed;
         conftest.uses_page
           {| conftest.item_page := 3%nat; conftest.item_body := λ _, conftest.passed |} ]
       conftest.initial)
  = [ conftest.screenshot_attached 1%nat "png of page 1"; conftest.page_not_available ].
Proof.
  destruct (session_hook_events (λ p : nat, inr ("png of page " +:+ pretty p))
              [ conftest.uses_page
                  {| conftest.item_page := 1%nat;
                     conftest.item_body := λ _, conftest.failed |};
                conftest.no_page conftest.failed;
                conftest.uses_page
                  {| conftest.item_page := 3%nat;
                     conftest.item_body := λ _, conftest.passed |} ]
              conftest.initial) as (Hevents & _); [reflexivity |].
  exact Hevents.
Defined.


(** ** The further properties on concrete pages *)

Section FurtherWitnesses.
Import playwright py home_page policy browsers.

(** Consent dismissal on a page without the popup. *)
Lemma consent_accepted_iff_clicked_witness :
  @accept_privacy_consent _ scripted a_config (__init__ a_config)
      (world [returned false] a_day) =
    (Return false,
     after_print
       (after_call (world [returned false] a_day)
          (is_visible privacy_popup_accept_button (Some 5000)) (returned false) [])
       "Privacy consent popup not visible").
Proof.
  apply (@consent_accepted_iff_clicked _ scripted a_config (__init__ a_config)
           (world [returned false] a_day)).
  reflexivity.
Defined.

(** Rotterdam's code on the cooperative page: the clear button is
    reported visible, so all five calls are made. *)
Lemma airport_setter_call_sequence_witness :
  calls (@set_departure_airport _ cooperative (__init__ a_config) "RTM"
           (world () a_day)).2 =
    [ is_visible clear_button_on_departure None;
      click clear_button_on_departure None;
      click from_airport_input None;
      fill from_airport_input "RTM";
      click (get_by_role "button" (text "Rome, Italy Add")) None ].
Proof.
  destruct (@airport_setter_call_sequence _ cooperative (__init__ a_config)
              "RTM" "Rome, Italy" (world () a_day))
    as ((made & Hcalls & _ & Hdone) & _); [reflexivity |].
  destruct Hdone as (visible & p & Hvisible & Hmade); [reflexivity |].
  injection Hvisible as <- _. rewrite Hcalls, Hmade. reflexivity.
Defined.

(** Four million days ahead of 2024-02-25. *)
Lemma departure_date_out_of_range_witness :
  ∃ message,
    @set_departure_date _ cooperative (__init__ a_config) 4000000 (world () a_day) =
      (Raise (OverflowError message),
       after_call (world () a_day) (click departure_date_input None) (returned true) ()).
Proof.
  apply (@departure_date_out_of_range _ cooperative (__init__ a_config) 4000000
           (world () a_day) true ()); [right; reflexivity | reflexivity].
Defined.

(** Thirty days before 2024-02-25. *)
Lemma departure_date_any_offset_witness :
  ∃ target,
    @today_plus unit (-30) (world () a_day) = (Return target, world () a_day) ∧
    datetime.valid target ∧
    datetime.toordinal target = datetime.toordinal a_day + -30 ∧
    (∀ b p, @perform _ cooperative (click departure_date_input None) () = (returned b, p) →
       click (date_cell (datetime.strftime_Y_m_d target)) None
         ∈ calls (@set_departure_date _ cooperative (__init__ a_config) (-30)
                    (world () a_day)).2).
Proof.
  apply (@departure_date_any_offset _ cooperative (__init__ a_config) (-30)
           (world () a_day)).
  - unfold datetime.valid. vm_compute. intuition discriminate.
  - vm_compute. intuition discriminate.
Defined.

(** One week and then another week is two weeks. *)
Lemma departure_offsets_compose_witness :
  ∃ first_target target,
    @today_plus unit 7 (world () a_day) = (Return first_target, world () a_day) ∧
    (let w' := {| page := (); today := first_target; ui_log := []; stdout := [] |} in
     today_plus 7 w' = (Return target, w')) ∧
    @today_plus unit (7 + 7) (world () a_day) = (Return target, world () a_day).
Proof.
  apply (@departure_offsets_compose unit 7 7 (world () a_day)).
  - unfold datetime.valid. vm_compute. intuition discriminate.
  - vm_compute. intuition discriminate.
  - vm_compute. intuition discriminate.
Defined.

(** One week and two weeks ahead are different cells. *)
Lemma distinct_offsets_distinct_cells_witness :
  date_cell "2024-03-03" ≠ date_cell "2024-03-10".
Proof.
  apply (@distinct_offsets_distinct_cells unit 7 14 (world () a_day)
           {| datetime.year := 2024; datetime.month := 3; datetime.day := 3 |}
           {| datetime.year := 2024; datetime.month := 3; datetime.day := 10 |}).
  - unfold datetime.valid. vm_compute. intuition discriminate.
  - vm_compute. discriminate.
  - lia.
  - lia.
  - lia.
  - reflexivity.
  - reflexivity.
Defined.

(** The hook on a setup report, and on a failed call whose capture
    raises. *)
Lemma makereport_only_on_call_failure_witness :
  let shot : nat → string + string := λ _, inl "Target page has been closed" in
  let g := {| conftest._test_failed_page := Some 1%nat; conftest.hook_events := [] |} in
  conftest.pytest_runtest_makereport shot
      {| conftest.when := conftest.setup; conftest.outcome := conftest.failed |} g = g ∧
  conftest.pytest_runtest_makereport shot
      {| conftest.when := conftest.call; conftest.outcome := conftest.failed |} g =
    conftest.emit (conftest.capture_failed "Target page has been closed") g.
Proof.
  intros shot g. split.
  - apply (makereport_only_on_call_failure shot).
    intros [? _]. discriminate.
  - apply (makereport_only_on_call_failure shot
             {| conftest.when := conftest.call; conftest.outcome := conftest.failed |} g
          ) with (p := 1%nat); reflexivity.
Defined.

End FurtherWitnesses.
